(** * Retry with backoff: src/utils/retry.js

    Shallow embedding of [retryWithBackoff] and [retryableFuncWithBackoff].
    Both functions share one catch body (lines 49-68 and 101-120); they
    differ only in how the retry re-runs the operation (re-subscribing to
    [source] versus calling [doRetry(...args)] again), which does not touch
    the retry counter or the reset timer.  One [run] below therefore models
    one subscription of the observable returned by [retryWithBackoff] as
    well as one call of the function returned by [retryableFuncWithBackoff].

    The closure variables [retryCount] and the pending [setTimeout] of
    [debounce] are the state [wstate]; it is created once, when
    [retryWithBackoff] / [retryableFuncWithBackoff] is called, and threaded
    through every later subscription or call of the returned value.

    Time is discrete ([Z]); an attempt of the wrapped operation is scripted
    by how long it runs and how it ends; the trace records the observable
    side effects: attempt starts, [onRetry] calls, scheduled backoff timers
    and calls of [debounceRetryCount]. *)

From Stdlib Require Import Ascii String ZArith Lia List Bool.
Import ListNotations.
Open Scope Z_scope.

Section Retry.

(** JS errors and values are arbitrary. *)
Variables Err Val : Type.

(** [getBackedoffDelay] from ./backoff (src/utils/backoff.js is not part of
    the sources): every claim below is proved for any such function. *)
Variable getBackedoffDelay : Z -> nat -> Z.

(** The [options] object. [onRetry] is a side-effecting hook; only whether
    it is configured matters, its calls are recorded in the trace. *)
Record options := mkOptions {
  retryDelay : Z;
  totalRetry : nat;
  resetDelay : Z;
  shouldRetry : option (Err -> bool);
  errorSelector : option (Err -> nat -> Err);
  onRetry : bool
}.

(** Closure state: [let retryCount = 0] and the timeout of [debounce],
    as the absolute time at which [() => retryCount = 0] will run. *)
Record wstate := mkWstate {
  retryCount : nat;
  resetTimer : option Z
}.

Definition wstate_init : wstate := mkWstate 0 None.

(** Observable side effects. *)
Inductive event :=
| EAttempt (t : Z)          (* the operation is (re)subscribed / (re)called *)
| EOnRetry (e : Err) (n : nat)  (* [onRetry(error, retryCount)] *)
| EWait (d : Z)             (* [timer(fuzzedDelay)] is scheduled *)
| ETouch (t : Z).           (* [debounceRetryCount()] runs *)

(** What the catch callback does: rethrow, or return the delayed retry. *)
Inductive decision :=
| Throw (e : Err)
| RetryAfter (d : Z).

(** How one attempt of the wrapped operation ends, [dur] after it starts. *)
Inductive outcome :=
| Fails (e : Err)
| Succeeds (v : Val).

Record attempt := mkAttempt { dur : Z; ending : outcome }.

(** What the caller finally observes. [RPending]: the scripted attempts
    ran out while the operation was still running. *)
Inductive result :=
| RSuccess (t : Z) (v : Val)
| RError (t : Z) (e : Err)
| RCancelled
| RPending.

(** The catch callback, lines 50-63 / 102-115.  [retryCount++ >= totalRetry]
    increments the counter and compares its old value; the [||] skips it
    when [wantRetry] is false. *)
Definition wantRetry (o : options) (e : Err) : bool :=
  match shouldRetry o with None => true | Some f => f e end.

(** [throw errorSelector(error, retryCount)] or [throw error]. *)
Definition selectError (o : options) (e : Err) (n : nat) : Err :=
  match errorSelector o with Some g => g e n | None => e end.

Definition catch_body (o : options) (s : wstate) (e : Err)
  : wstate * list event * decision :=
  if negb (wantRetry o e) then (s, [], Throw (selectError o e (retryCount s)))
  else
    let old := retryCount s in
    let s' := mkWstate (S old) (resetTimer s) in
    if (totalRetry o <=? old)%nat then (s', [], Throw (selectError o e (S old)))
    else
      let fuzzedDelay := getBackedoffDelay (retryDelay o) (S old) in
      (s', (if onRetry o then [EOnRetry e (S old)] else []) ++ [EWait fuzzedDelay],
       RetryAfter fuzzedDelay).

(** The debounce timeout fires if it is due by time [t]: [retryCount = 0]. *)
Definition fire_reset (t : Z) (s : wstate) : wstate :=
  match resetTimer s with
  | Some tr => if tr <=? t then mkWstate 0 None else s
  | None => s
  end.

(** [debounceRetryCount && debounceRetryCount()] at time [t]: defined only
    when [resetDelay > 0]; clears the pending timeout and sets a new one. *)
Definition touch (o : options) (t : Z) (s : wstate) : wstate * list event :=
  if 0 <? resetDelay o
  then (mkWstate (retryCount s) (Some (t + resetDelay o)), [ETouch t])
  else (s, []).

(** Unsubscription by the caller at time [tc]: nothing at or after [tc]. *)
Definition cancelled_by (cancel : option Z) (t : Z) : bool :=
  match cancel with Some tc => tc <=? t | None => false end.

(** One subscription / outer call started at time [t], with the wrapper's
    state [s], the attempts scripted by [script], and an optional
    unsubscription time. *)
Fixpoint run (o : options) (cancel : option Z) (t : Z) (s : wstate)
    (script : list attempt) : wstate * list event * result :=
  match script with
  | [] => (s, [EAttempt t], RPending)
  | a :: rest =>
    let tf := t + dur a in
    if cancelled_by cancel tf then (s, [EAttempt t], RCancelled) else
    let s1 := fire_reset tf s in
    match ending a with
    | Succeeds v => (s1, [EAttempt t], RSuccess tf v)
    | Fails e =>
      match catch_body o s1 e with
      | (s2, l2, Throw e') => (s2, EAttempt t :: l2, RError tf e')
      | (s2, l2, RetryAfter d) =>
        let tw := tf + d in
        if cancelled_by cancel tw then (s2, EAttempt t :: l2, RCancelled) else
        let '(s3, l3) := touch o tw (fire_reset tw s2) in
        let '(s4, l4, r) := run o cancel tw s3 rest in
        (s4, EAttempt t :: l2 ++ l3 ++ l4, r)
      end
    end
  end.

(** The closures created by the two exported functions. *)
Definition retryWithBackoff (o : options) : options * wstate := (o, wstate_init).
Definition retryableFuncWithBackoff (o : options) : options * wstate := (o, wstate_init).

(** A later subscription / call of the same wrapper: it starts from the
    state the earlier ones left in the closure. *)
Definition invoke (w : options * wstate) (cancel : option Z) (t : Z)
    (script : list attempt) : (options * wstate) * list event * result :=
  let '(s', l, r) := run (fst w) cancel t (snd w) script in ((fst w, s'), l, r).

(** Trace projections. *)
Definition is_retry_event (ev : event) : bool :=
  match ev with EOnRetry _ _ | EWait _ => true | _ => false end.

Definition count_onretry (l : list event) : nat :=
  length (filter (fun ev => match ev with EOnRetry _ _ => true | _ => false end) l).

Definition count_attempts (l : list event) : nat :=
  length (filter (fun ev => match ev with EAttempt _ => true | _ => false end) l).

Definition count_touch (l : list event) : nat :=
  length (filter (fun ev => match ev with ETouch _ => true | _ => false end) l).

Definition count_wait (l : list event) : nat :=
  length (filter (fun ev => match ev with EWait _ => true | _ => false end) l).

(** The [onRetry] calls and backoff timers expected for retries numbered
    [k], [k+1], ... caused by the errors [errs]. *)
Fixpoint expected_retries (o : options) (k : nat) (errs : list Err) : list event :=
  match errs with
  | [] => []
  | e :: es =>
    (if onRetry o then [EOnRetry e k] else []) ++
    EWait (getBackedoffDelay (retryDelay o) k) :: expected_retries o (S k) es
  end.

(** Attempts that fail after the given durations with the given errors. *)
Definition failing (fs : list (Z * Err)) : list attempt :=
  map (fun p => mkAttempt (fst p) (Fails (snd p))) fs.

(** Every touch of the reset timer comes right after a backoff timer and
    right before the re-run of the operation at the same instant; every
    backoff timer that is not the last event is followed by a touch. *)
Fixpoint touch_placed (l : list event) : bool :=
  match l with
  | [] => true
  | EWait _ :: ETouch t :: EAttempt t' :: r => (t =? t') && touch_placed r
  | EWait _ :: [] => true
  | EWait _ :: _ => false
  | ETouch _ :: _ => false
  | _ :: r => touch_placed r
  end.

(** The scheduled backoff timers of a trace. *)
Definition waits (l : list event) : list event :=
  filter (fun ev => match ev with EWait _ => true | _ => false end) l.

End Retry.

Arguments mkOptions {Err}.
Arguments retryDelay {Err}.
Arguments totalRetry {Err}.
Arguments resetDelay {Err}.
Arguments shouldRetry {Err}.
Arguments errorSelector {Err}.
Arguments onRetry {Err}.
Arguments EAttempt {Err}.
Arguments EOnRetry {Err}.
Arguments EWait {Err}.
Arguments ETouch {Err}.
Arguments Throw {Err}.
Arguments RetryAfter {Err}.
Arguments Fails {Err Val}.
Arguments Succeeds {Err Val}.
Arguments mkAttempt {Err Val}.
Arguments dur {Err Val}.
Arguments ending {Err Val}.
Arguments RSuccess {Err Val}.
Arguments RError {Err Val}.
Arguments RCancelled {Err Val}.
Arguments RPending {Err Val}.
Arguments catch_body {Err} getBackedoffDelay.
Arguments touch {Err}.
Arguments run {Err Val} getBackedoffDelay.
Arguments retryWithBackoff {Err}.
Arguments retryableFuncWithBackoff {Err}.
Arguments is_retry_event {Err}.
Arguments count_onretry {Err}.
Arguments count_attempts {Err}.
Arguments count_touch {Err}.
Arguments count_wait {Err}.
Arguments wantRetry {Err}.
Arguments selectError {Err}.
Arguments invoke {Err Val} getBackedoffDelay.
Arguments expected_retries {Err} getBackedoffDelay.
Arguments failing {Err Val}.
Arguments touch_placed {Err}.
Arguments waits {Err}.

(** Modelled from the spec: [getBackedoffDelay] of src/utils/backoff.js,
    exponential growth in the attempt number without the random fuzz;
    used only to evaluate concrete scenarios. *)
Definition backoff_model (base : Z) (n : nat) : Z := Z.shiftl base (Z.of_nat n - 1).

(** [debounce(fn, delay)], lines 12-20, on its own, for a positive
    [delay] ([setTimeout] clamps the others): a call at time [t] clears the
    pending timeout and sets a new one for [t + delay].  A timeout already
    run by then is unaffected: it is run when it is due strictly before the
    call; one due at the very instant of the call (two calls in the same
    synchronous run, say) is cleared before it runs.  The result is the
    list of times at which [fn] runs; after the last call nothing clears
    the timeout any more, so it fires. *)
Fixpoint debounce_run (delay : Z) (pending : option Z) (calls : list Z) : list Z :=
  match calls with
  | [] => match pending with Some tp => [tp] | None => [] end
  | t :: ts =>
    (match pending with Some tp => if tp <? t then [tp] else [] | None => [] end) ++
    debounce_run delay (Some (t + delay)) ts
  end.

(** The runs of [fn] expected from a sequence of calls [t :: ts]: a call
    leads to a run [delay] later exactly when the next call comes later
    than that; the last call always does. *)
Fixpoint debounce_expected (delay t : Z) (ts : list Z) : list Z :=
  match ts with
  | [] => [t + delay]
  | t' :: ts' => (if t + delay <? t' then [t + delay] else []) ++ debounce_expected delay t' ts'
  end.

(** * The media-fragment time parser: src/core/time-fragment.js

    Strings are lists of characters; a character is a UTF-16 code unit
    below 256.  A JS [throw] is [None]: [throw new Error(errMessage)], or
    [assert(cond, errMessage)] of ../utils/assert (not among the sources),
    taken to throw when [cond] is false. *)

Definition str := list ascii.

Definition lit (s : string) : str := list_ascii_of_string s.

(** [\d] *)
Definition is_digit (c : ascii) : bool :=
  Nat.leb 48 (nat_of_ascii c) && Nat.leb (nat_of_ascii c) 57.

(** [\d+] and [\d*] *)
Definition digits1 (l : str) : bool :=
  match l with [] => false | _ => forallb is_digit l end.
Definition digits0 (l : str) : bool := forallb is_digit l.

(** All ways of cutting a string in two, used to try every way a
    concatenation in a regular expression can match. *)
Fixpoint splits (l : str) : list (str * str) :=
  ([], l) :: match l with
             | [] => []
             | c :: r => map (fun p => (c :: fst p, snd p)) (splits r)
             end.

(** All suffixes: where an unanchored match ending at [$] may start. *)
Fixpoint suffixes (l : str) : list str :=
  l :: match l with [] => [] | _ :: r => suffixes r end.

(** [(\.\d* )?] and [(\.\d+)?] (spaces added) *)
Definition opt_dot_digits0 (l : str) : bool :=
  match l with [] => true | c :: r => Ascii.eqb c "." && digits0 r end.
Definition opt_dot_digits1 (l : str) : bool :=
  match l with [] => true | c :: r => Ascii.eqb c "." && digits1 r end.

(** [\d\d:\d\d] *)
Definition mm_ss (l : str) : bool :=
  match l with
  | [a; b; c; d; e] => is_digit a && is_digit b && Ascii.eqb c ":" && is_digit d && is_digit e
  | _ => false
  end.

(** [((\d+:)?(\d\d):(\d\d))|(\d+)] *)
Definition npt_core (l : str) : bool :=
  mm_ss l ||
  existsb (fun p => digits1 (fst p) &&
             match snd p with c :: r => Ascii.eqb c ":" && mm_ss r | [] => false end)
          (splits l) ||
  digits1 l.

(** [npt = /(((\d+:)?(\d\d):(\d\d))|(\d+))(\.\d* )?$/] (space added), line 235: anchored
    at the end only, so [npt.test] holds when some suffix matches. *)
Definition npt_body (l : str) : bool :=
  existsb (fun p => npt_core (fst p) && opt_dot_digits0 (snd p)) (splits l).
Definition npt_test (s : str) : bool := existsb npt_body (suffixes s).

(** [(:\d\d(\.\d\d)?)?] *)
Definition smpte_tail (l : str) : bool :=
  match l with
  | [] => true
  | [c; a; b] => Ascii.eqb c ":" && is_digit a && is_digit b
  | [c; a; b; p; x; y] =>
    Ascii.eqb c ":" && is_digit a && is_digit b && Ascii.eqb p "." && is_digit x && is_digit y
  | _ => false
  end.

(** [smpte = /^\d+:\d\d:\d\d(:\d\d(\.\d\d)?)?$/], line 240. *)
Definition smpte_test (s : str) : bool :=
  existsb (fun p => digits1 (fst p) &&
             match snd p with
             | c1 :: a :: b :: c2 :: d :: e :: tl =>
               Ascii.eqb c1 ":" && is_digit a && is_digit b && Ascii.eqb c2 ":" &&
               is_digit d && is_digit e && smpte_tail tl
             | _ => false
             end)
          (splits s).

(** [(Z|([-+]\d{2}:\d{2}))?] *)
Definition wc_zone (l : str) : bool :=
  match l with
  | [] => true
  | [z] => Ascii.eqb z "Z"
  | [sg; a; b; c; d; e] =>
    (Ascii.eqb sg "-" || Ascii.eqb sg "+") && is_digit a && is_digit b &&
    Ascii.eqb c ":" && is_digit d && is_digit e
  | _ => false
  end.

(** [wallClock = /^\d{4}-\d{2}-\d{2}T\d{2}:\d{2}:\d{2}(\.\d+)?(Z|([-+]\d{2}:\d{2}))?$/],
    lines 248-249. *)
Definition wallClock_test (s : str) : bool :=
  match s with
  | y1 :: y2 :: y3 :: y4 :: h1 :: mo1 :: mo2 :: h2 :: d1 :: d2 :: tT ::
    hh1 :: hh2 :: c1 :: mi1 :: mi2 :: c2 :: s1 :: s2 :: rest =>
    forallb is_digit [y1; y2; y3; y4; mo1; mo2; d1; d2; hh1; hh2; mi1; mi2; s1; s2] &&
    Ascii.eqb h1 "-" && Ascii.eqb h2 "-" && Ascii.eqb tT "T" &&
    Ascii.eqb c1 ":" && Ascii.eqb c2 ":" &&
    existsb (fun p => opt_dot_digits1 (fst p) && wc_zone (snd p)) (splits rest)
  | _ => false
  end.

(** [ ?%] *)
Definition pct_tail (l : str) : bool :=
  match l with
  | [c] => Ascii.eqb c "%"
  | [b; c] => Ascii.eqb b " " && Ascii.eqb c "%"
  | _ => false
  end.

(** [percentage = /^\d*(\.\d+)? ?%$/], line 258. *)
Definition percentage_test (s : str) : bool :=
  existsb (fun p => digits0 (fst p) &&
             existsb (fun q => opt_dot_digits1 (fst q) && pct_tail (snd q)) (splits (snd p)))
          (splits s).

(** The characters [percentage] accepts. *)
Definition pct_char (c : ascii) : bool :=
  is_digit c || Ascii.eqb c "." || Ascii.eqb c " " || Ascii.eqb c "%".

(** [str.split(sep)] with a one-character separator. *)
Fixpoint split_on (sep : ascii) (l : str) : list str :=
  match l with
  | [] => [[]]
  | c :: r =>
    if Ascii.eqb c sep then [] :: split_on sep r
    else match split_on sep r with
         | [] => [[c]]
         | x :: xs => (c :: x) :: xs
         end
  end.

Fixpoint strip_prefix (p l : str) : option str :=
  match p, l with
  | [], _ => Some l
  | c :: p', d :: l' => if Ascii.eqb c d then strip_prefix p' l' else None
  | _ :: _, [] => None
  end.

(** [.replace(/^smpte(-25|-30|-30-drop)?:/, "")], line 224. *)
Definition strip_smpte (l : str) : str :=
  match strip_prefix (lit "smpte") l with
  | None => l
  | Some r =>
    match strip_prefix (lit "-25:") r with Some r' => r' | None =>
    match strip_prefix (lit "-30:") r with Some r' => r' | None =>
    match strip_prefix (lit "-30-drop:") r with Some r' => r' | None =>
    match strip_prefix (lit ":") r with Some r' => r' | None => l end end end end
  end.

(** [.replace(/^npt[:=]/, "")], line 225. *)
Definition strip_npt (l : str) : str :=
  match strip_prefix (lit "npt:") l with
  | Some r => r
  | None => match strip_prefix (lit "npt=") l with Some r => r | None => l end
  end.

(** [.replace(p, "")] with a string pattern: the first occurrence goes. *)
Fixpoint replace_first (p l : str) : str :=
  match strip_prefix p l with
  | Some r => r
  | None => match l with [] => [] | c :: r => c :: replace_first p r end
  end.

(** [parseInt(s, 10)]: leading white space, a sign, then the longest run of
    digits; [None] is NaN.  The value is exact; only its comparisons with
    small bounds are used, which double rounding does not change. *)
Definition is_js_space (c : ascii) : bool :=
  let n := nat_of_ascii c in
  Nat.eqb n 32 || (Nat.leb 9 n && Nat.leb n 13) || Nat.eqb n 160.

Fixpoint skip_spaces (l : str) : str :=
  match l with c :: r => if is_js_space c then skip_spaces r else l | [] => [] end.

Fixpoint digit_prefix (l : str) : str :=
  match l with c :: r => if is_digit c then c :: digit_prefix r else [] | [] => [] end.

Definition digits_value (ds : str) : Z :=
  fold_left (fun acc c => acc * 10 + (Z.of_nat (nat_of_ascii c) - 48)) ds 0.

Definition parseInt10 (l : str) : option Z :=
  let l1 := skip_spaces l in
  let '(sign, l2) :=
    match l1 with
    | c :: r => if Ascii.eqb c "-" then (-1, r) else if Ascii.eqb c "+" then (1, r) else (1, l1)
    | [] => (1, l1)
    end in
  match digit_prefix l2 with [] => None | ds => Some (sign * digits_value ds) end.

(** What a normalizer returns.  [FNPT h m sec] is the number
    [h * 3600 + m * 60 + parseFloat(sec)] and [FSMPTE h m s f sf] the number
    [h * 3600 + m * 60 + s + f * 0.001 + sf * 0.000001] ([None]: NaN);
    [FDate t] is [new Date(Date.parse(t))]; [FStr] a string. *)
Inductive fval :=
| FFalse
| FNPT (hours minutes : Z) (seconds : str)
| FSMPTE (hours minutes seconds : Z) (frames subframes : option Z)
| FDate (time : str)
| FStr (s : str).

(** [str.replace(/\.$/, "")], line 88. *)
Definition remove_trailing_dot (l : str) : str :=
  match rev l with c :: r => if Ascii.eqb c "." then rev r else l | [] => l end.

Inductive normalizer := NormNPT | NormSMPTE | NormWallClock | NormPercentage.

Section TimeFragment.

(** [parseFloat(s) < 60] on doubles, line 121: left open, every property
    below holds whatever it is. *)
Variable secondsBelow60 : str -> bool.

(** [normalizeNPTTime], lines 81-123.  [hours <= 23] and [minutes <= 59]
    are false on NaN, so the assertion throws. *)
Definition normalizeNPTTime (time : str) : option fval :=
  match time with
  | [] => Some FFalse
  | _ =>
    let parts := split_on ":" (remove_trailing_dot time) in
    let fields :=
      match parts with
      | [h; m; sec] => Some (parseInt10 h, parseInt10 m, sec)
      | [m; sec] => Some (Some 0, parseInt10 m, sec)
      | [sec] => Some (Some 0, Some 0, sec)
      | _ => None
      end in
    match fields with
    | None => Some FFalse
    | Some (Some h, Some m, sec) =>
      if (h <=? 23) && (m <=? 59) && (Nat.leb (length parts) 1 || secondsBelow60 sec)
      then Some (FNPT h m sec) else None
    | Some _ => None
    end
  end.

(** [normalizeSMPTETime], lines 134-179. *)
Definition normalizeSMPTETime (time : str) : option fval :=
  match time with
  | [] => Some FFalse
  | _ =>
    let fields :=
      match split_on ":" time with
      | [h; m; sec] => Some (parseInt10 h, parseInt10 m, parseInt10 sec, Some 0, Some 0)
      | [h; m; sec; fr] =>
        if negb (existsb (Ascii.eqb ".") fr)
        then Some (parseInt10 h, parseInt10 m, parseInt10 sec, parseInt10 fr, Some 0)
        else
          let fs := split_on "." fr in
          Some (parseInt10 h, parseInt10 m, parseInt10 sec,
                parseInt10 (nth 0 fs []), parseInt10 (nth 1 fs []))
      | _ => None
      end in
    match fields with
    | None => Some FFalse
    | Some (Some h, Some m, Some sec, f, sf) =>
      if (h <=? 23) && (m <=? 59) && (sec <=? 59) then Some (FSMPTE h m sec f sf) else None
    | Some _ => None
    end
  end.

(** [normalizeWallClockTime], lines 188-191. *)
Definition normalizeWallClockTime (time : str) : option fval := Some (FDate time).

(** [normalizePercentage], lines 199-205. *)
Definition normalizePercentage (time : str) : option fval :=
  match time with [] => Some FFalse | _ => Some (FStr time) end.

(** The choice of [timeNormalizer], lines 261-276. *)
Definition choose_normalizer (start end_ : str) : option normalizer :=
  if npt_test start && npt_test end_ then Some NormNPT
  else if smpte_test start && smpte_test end_ then Some NormSMPTE
  else if wallClock_test start && wallClock_test end_ then Some NormWallClock
  else if percentage_test start && percentage_test end_ then Some NormPercentage
  else None.

Definition normalize (n : normalizer) : str -> option fval :=
  match n with
  | NormNPT => normalizeNPTTime
  | NormSMPTE => normalizeSMPTETime
  | NormWallClock => normalizeWallClockTime
  | NormPercentage => normalizePercentage
  end.

Definition nonempty (l : str) : bool := match l with [] => false | _ => true end.

Definition is_false (v : fval) : bool := match v with FFalse => true | _ => false end.

(** [start === false ? "" : start] *)
Definition false_to_empty (v : fval) : fval := match v with FFalse => FStr [] | _ => v end.

(** [temporalMediaFragmentParser], lines 214-285: [Some (start, end)] is
    the returned object. *)
Definition temporalMediaFragmentParser (value : str) : option (fval * fval) :=
  let components := split_on "," value in
  if negb (Nat.leb (length components) 2) then None else
  let start := nth 0 components [] in
  let end_ := nth 1 components [] in
  if negb ((nonempty start || nonempty end_) &&
           (negb (nonempty start) || nonempty end_ || negb (existsb (Ascii.eqb ",") value)))
  then None else
  let start := replace_first (lit "clock:") (strip_npt (strip_smpte start)) in
  match choose_normalizer start end_ with
  | None => None
  | Some n =>
    match normalize n start with
    | None => None
    | Some sv =>
      match normalize n end_ with
      | None => None
      | Some ev =>
        if is_false sv && is_false ev then None
        else Some (false_to_empty sv, false_to_empty ev)
      end
    end
  end.

End TimeFragment.

(** * Image tips of the progress bar: Progressbar.showImageTip *)

Record image_entry (D : Type) := mkImage { img_ts : Z; img_data : D }.

(** [this.state]; [tip_image = None] is [null]. *)
Record tip_state (D : Type) := mkTip {
  imageTipVisible : bool;
  imageTipPosition : Z;
  tip_image : option D
}.

Arguments mkImage {D}.
Arguments img_ts {D}.
Arguments img_data {D}.
Arguments mkTip {D}.

(** [Array.prototype.findIndex]: [-1] when nothing satisfies [p]. *)
Fixpoint findIndex {A} (p : A -> bool) (l : list A) : Z :=
  match l with
  | [] => -1
  | x :: r => if p x then 0 else let i := findIndex p r in if i =? -1 then -1 else i + 1
  end.

(** [images[k]]: [None] for an index outside the array ([undefined]) and
    for a [null] entry. *)
Definition js_index {A} (l : list (option A)) (k : Z) : option A :=
  if k <? 0 then None
  else match nth_error l (Z.to_nat k) with Some x => x | None => None end.

(** [showImageTip(ts, clientX)] with [timestampToMs = ts * 1000] given;
    [images] is [this.props.images] ([None]: missing), its entries are
    optional ([None]: a falsy entry).  The result is the new state. *)
Definition showImageTip {D} (images : option (list (option (image_entry D))))
    (timestampToMs clientX : Z) (st : tip_state D) : tip_state D :=
  match images with
  | None | Some [] => st
  | Some imgs =>
    let imageIndex :=
      findIndex (fun io => match io with Some i => timestampToMs <? img_ts i | None => false end) imgs in
    let image :=
      if imageIndex =? -1 then js_index imgs (Z.of_nat (length imgs) - 1)
      else js_index imgs (imageIndex - 1) in
    match image with
    | None => st
    | Some i => mkTip true clientX (Some (img_data i))
    end
  end.

(** Concrete configurations used to evaluate scenarios (errors and values
    are numbers). *)
Definition opts_reset1 : options nat := mkOptions 100 1 1 None None true.
Definition opts_shared : options nat := mkOptions 100 1 0 None None true.
Definition opts_sel : options nat := mkOptions 100 0 0 None (Some (fun _ n => n)) false.
Definition opts_two : options nat := mkOptions 100 2 0 None None true.
Definition opts_touch : options nat := mkOptions 100 1 10 None None false.
Definition opts_noretry : options nat :=
  mkOptions 100 2 0 (Some (fun e => Nat.eqb e 0)) (Some (fun e n => (e + n)%nat)) true.

(** One failure after 5 time units, then success after 5 more. *)
Definition fail_then_ok (e v : nat) : list (attempt nat nat) :=
  [mkAttempt 5 (Fails e); mkAttempt 5 (Succeeds v)].

Example run_ex1 :
  let o := mkOptions 100 2 0 None None true in
  run backoff_model o None 0 wstate_init
    [mkAttempt (Val:=nat) 5 (Fails 7%nat); mkAttempt 5 (Fails 7%nat); mkAttempt 5 (Succeeds 1%nat)]
  = (mkWstate 2 None,
     [EAttempt 0; EOnRetry 7%nat 1; EWait 100; EAttempt 105; EOnRetry 7%nat 2; EWait 200; EAttempt 310],
     RSuccess 315 1%nat).
Proof. reflexivity. Qed.

(** * General lemmas about the catch body and the run *)

Section Lemmas.
Context {Err Val : Type} (gbd : Z -> nat -> Z).
Implicit Types (o : options Err) (s : wstate) (e : Err) (a : attempt Err Val).

Lemma catch_body_no_retry o s e :
  wantRetry o e = false ->
  catch_body gbd o s e = (s, [], Throw (selectError o e (retryCount s))).
Proof. intros H. unfold catch_body. rewrite H. reflexivity. Qed.

Lemma catch_body_exhausted o s e :
  wantRetry o e = true -> (totalRetry o <= retryCount s)%nat ->
  catch_body gbd o s e =
    (mkWstate (S (retryCount s)) (resetTimer s), [],
     Throw (selectError o e (S (retryCount s)))).
Proof.
  intros H1 H2. unfold catch_body. rewrite H1. cbn.
  apply Nat.leb_le in H2. rewrite H2. reflexivity.
Qed.

Lemma catch_body_retry o s e :
  wantRetry o e = true -> (retryCount s < totalRetry o)%nat ->
  catch_body gbd o s e =
    (mkWstate (S (retryCount s)) (resetTimer s),
     (if onRetry o then [EOnRetry e (S (retryCount s))] else []) ++
       [EWait (gbd (retryDelay o) (S (retryCount s)))],
     RetryAfter (gbd (retryDelay o) (S (retryCount s)))).
Proof.
  intros H1 H2. unfold catch_body. rewrite H1. cbn.
  apply Nat.leb_gt in H2. rewrite H2. reflexivity.
Qed.

Lemma run_cons_retry o c t s a rest e s2 l2 d s3 l3 :
  cancelled_by c (t + dur a) = false ->
  ending a = Fails e ->
  catch_body gbd o (fire_reset (t + dur a) s) e = (s2, l2, RetryAfter d) ->
  cancelled_by c (t + dur a + d) = false ->
  touch o (t + dur a + d) (fire_reset (t + dur a + d) s2) = (s3, l3) ->
  run (Val:=Val) gbd o c t s (a :: rest) =
    let '(s4, l4, r) := run gbd o c (t + dur a + d) s3 rest in
    (s4, EAttempt t :: l2 ++ l3 ++ l4, r).
Proof.
  intros H1 H2 H3 H4 H5. cbn [run]. rewrite H1, H2, H3, H4, H5. reflexivity.
Qed.

Lemma run_cons_throw o c t s a rest e s2 l2 e' :
  cancelled_by c (t + dur a) = false ->
  ending a = Fails e ->
  catch_body gbd o (fire_reset (t + dur a) s) e = (s2, l2, Throw e') ->
  run (Val:=Val) gbd o c t s (a :: rest) = (s2, EAttempt t :: l2, RError (t + dur a) e').
Proof.
  intros H1 H2 H3. cbn [run]. rewrite H1, H2, H3. reflexivity.
Qed.

Lemma run_head o c t s script :
  exists s' l r, run (Val:=Val) gbd o c t s script = (s', EAttempt t :: l, r).
Proof.
  destruct script as [|a rest]; cbn [run]; [eauto|].
  destruct (cancelled_by c (t + dur a)); [eauto|].
  destruct (ending a) as [e|v]; [|eauto].
  destruct (catch_body gbd o (fire_reset (t + dur a) s) e) as [[s2 l2] [e'|d]]; [eauto|].
  destruct (cancelled_by c (t + dur a + d)); [eauto|].
  destruct (touch o (t + dur a + d) (fire_reset (t + dur a + d) s2)) as [s3 l3].
  destruct (run gbd o c (t + dur a + d) s3 rest) as [[s4 l4] r]. eauto.
Qed.

End Lemmas.

(** * Retry chains when the reset timer is disabled ([resetDelay <= 0]) *)

Section Chains.
Context {Err Val : Type} (gbd : Z -> nat -> Z).
Implicit Types (o : options Err) (s : wstate) (e : Err).

Lemma touch_disabled o t s : resetDelay o <= 0 -> touch o t s = (s, []).
Proof. intros H. unfold touch. destruct (Z.ltb_spec 0 (resetDelay o)); [lia|reflexivity]. Qed.

Lemma fire_reset_none t s : resetTimer s = None -> fire_reset t s = s.
Proof. intros H. unfold fire_reset. rewrite H. reflexivity. Qed.

(** [fs] retryable failures in a row, within the budget: every one of them
    is retried, numbered from the counter on. *)
Lemma run_failing_prefix o t s (fs : list (Z * Err)) (rest : list (attempt Err Val)) :
  resetDelay o <= 0 -> resetTimer s = None ->
  forallb (fun p => wantRetry o (snd p)) fs = true ->
  (retryCount s + length fs <= totalRetry o)%nat ->
  exists t' pre,
    filter is_retry_event pre = expected_retries gbd o (S (retryCount s)) (map snd fs) /\
    count_attempts pre = length fs /\
    count_wait pre = length fs /\
    run gbd o None t s (failing fs ++ rest) =
      (let '(s', l, r) := run gbd o None t' (mkWstate (retryCount s + length fs) None) rest
       in (s', pre ++ l, r)).
Proof.
  intros Hrd. revert t s.
  induction fs as [|[df e] fs IH]; intros t s Hn Hall Hle.
  - exists t, []. cbn. repeat split.
    destruct s as [n tm]. cbn in *. subst tm. rewrite Nat.add_0_r.
    destruct (run gbd o None t (mkWstate n None) rest) as [[s' l] r]. reflexivity.
  - cbn in Hall, Hle. apply andb_prop in Hall as [He Hall].
    set (a := mkAttempt df (Fails e) : attempt Err Val).
    set (s2 := mkWstate (S (retryCount s)) None).
    assert (Hc : catch_body gbd o (fire_reset (t + dur a) s) e =
      (s2, (if onRetry o then [EOnRetry e (S (retryCount s))] else []) ++
             [EWait (gbd (retryDelay o) (S (retryCount s)))],
       RetryAfter (gbd (retryDelay o) (S (retryCount s))))).
    { rewrite fire_reset_none by exact Hn. rewrite catch_body_retry by (auto; lia).
      rewrite Hn. reflexivity. }
    assert (Ht : touch o (t + dur a + gbd (retryDelay o) (S (retryCount s)))
                   (fire_reset (t + dur a + gbd (retryDelay o) (S (retryCount s))) s2) = (s2, [])).
    { rewrite fire_reset_none by reflexivity. apply touch_disabled; exact Hrd. }
    destruct (IH (t + dur a + gbd (retryDelay o) (S (retryCount s))) s2 eq_refl Hall)
      as (t' & pre & Hf & Ha & Hw & Hr); [cbn; lia|].
    exists t', (EAttempt t :: ((if onRetry o then [EOnRetry e (S (retryCount s))] else []) ++
                  [EWait (gbd (retryDelay o) (S (retryCount s)))]) ++ pre).
    change (failing ((df, e) :: fs) ++ rest) with (a :: (failing fs ++ rest)).
    change (length ((df, e) :: fs)) with (S (length fs)).
    change (map snd ((df, e) :: fs)) with (e :: map snd fs).
    rewrite (run_cons_retry gbd o None t s a (failing fs ++ rest) e s2 _ _ s2 [] eq_refl eq_refl Hc eq_refl Ht).
    rewrite Hr. replace (retryCount s2 + length fs)%nat with (retryCount s + S (length fs))%nat
      by (cbn; lia).
    destruct (run gbd o None t' (mkWstate (retryCount s + S (length fs)) None) rest) as [[s' l] r].
    repeat split.
    + cbn. rewrite filter_app. destruct (onRetry o); cbn; rewrite Hf; reflexivity.
    + unfold count_attempts in *. cbn. rewrite filter_app, length_app.
      destruct (onRetry o); cbn; rewrite Ha; reflexivity.
    + unfold count_wait in *. cbn. rewrite filter_app, length_app.
      destruct (onRetry o); cbn; rewrite Hw; reflexivity.
    + rewrite app_nil_l. cbn [app]. rewrite <- !app_assoc. reflexivity.
Qed.

Lemma count_wait_app (l1 l2 : list (event Err)) :
  count_wait (l1 ++ l2) = (count_wait l1 + count_wait l2)%nat.
Proof. unfold count_wait. rewrite filter_app, length_app. reflexivity. Qed.

Lemma count_touch_app (l1 l2 : list (event Err)) :
  count_touch (l1 ++ l2) = (count_touch l1 + count_touch l2)%nat.
Proof. unfold count_touch. rewrite filter_app, length_app. reflexivity. Qed.

Lemma count_attempts_app (l1 l2 : list (event Err)) :
  count_attempts (l1 ++ l2) = (count_attempts l1 + count_attempts l2)%nat.
Proof. unfold count_attempts. rewrite filter_app, length_app. reflexivity. Qed.

Lemma onretry_counts o e n :
  count_wait ((if onRetry o then [EOnRetry e n] else []) ++ [EWait (gbd (retryDelay o) n)]) = 1%nat /\
  count_touch ((if onRetry o then [EOnRetry e n] else []) ++ [EWait (gbd (retryDelay o) n)]) = 0%nat /\
  count_attempts ((if onRetry o then [EOnRetry e n] else []) ++ [EWait (gbd (retryDelay o) n)]) = 0%nat.
Proof. destruct (onRetry o); repeat split; reflexivity. Qed.

(** With the reset disabled, no timeout is ever pending, the counter only
    grows, and it grows at least by the number of retries performed. *)
Lemma run_count_grows o c t s (script : list (attempt Err Val)) :
  resetDelay o <= 0 -> resetTimer s = None ->
  let '(s', l, r) := run gbd o c t s script in
  (retryCount s + count_wait l <= retryCount s')%nat /\ resetTimer s' = None /\
  count_touch l = 0%nat.
Proof.
  intros Hrd. revert t s.
  induction script as [|a rest IH]; intros t s Hn; cbn [run].
  - cbn. rewrite Nat.add_0_r. auto.
  - destruct (cancelled_by c (t + dur a)); [cbn; rewrite Nat.add_0_r; auto|].
    rewrite (fire_reset_none _ s Hn).
    destruct (ending a) as [e|v]; [|cbn; rewrite Nat.add_0_r; auto].
    destruct (wantRetry o e) eqn:Hw.
    + destruct (Nat.le_gt_cases (totalRetry o) (retryCount s)) as [Hle|Hlt].
      * rewrite catch_body_exhausted by assumption. cbn. split; [lia|]. rewrite Hn. auto.
      * rewrite catch_body_retry by assumption.
        destruct (onretry_counts o e (S (retryCount s))) as (H1 & H2 & _).
        destruct (cancelled_by c _).
        -- cbn [count_wait count_touch filter length]. unfold count_wait, count_touch in *.
           cbn [filter length]. split; [cbn in H1 |- *; lia|]. cbn. rewrite Hn. auto.
        -- rewrite fire_reset_none by (cbn; exact Hn).
           rewrite touch_disabled by exact Hrd.
           specialize (IH (t + dur a + gbd (retryDelay o) (S (retryCount s)))
                          (mkWstate (S (retryCount s)) (resetTimer s)) Hn).
           destruct (run gbd o c _ _ rest) as [[s4 l4] r]. cbn in IH.
           destruct IH as (IH1 & IH2 & IH3).
           change (EAttempt t :: ?x) with ([EAttempt t] ++ x).
           rewrite !count_wait_app, !count_touch_app, IH3.
           destruct (onRetry o); cbn in *; repeat split; auto; lia.
    + rewrite catch_body_no_retry by assumption. cbn. rewrite Nat.add_0_r. auto.
Qed.

(** A run looks at the wrapper's state only through the reset firing at the
    end of its first attempt. *)
Lemma run_after_reset o c t s s' a (rest : list (attempt Err Val)) :
  cancelled_by c (t + dur a) = false ->
  fire_reset (t + dur a) s = fire_reset (t + dur a) s' ->
  run gbd o c t s (a :: rest) = run gbd o c t s' (a :: rest).
Proof. intros H1 H2. cbn [run]. rewrite H1, H2. reflexivity. Qed.

(** Waits of the expected retry events. *)
Lemma waits_expected o k errs :
  waits (expected_retries gbd o k errs) =
  map (fun i => EWait (gbd (retryDelay o) i)) (seq k (length errs)).
Proof.
  revert k. induction errs as [|e es IH]; intros k; [reflexivity|].
  cbn [expected_retries]. unfold waits in *. rewrite filter_app.
  destruct (onRetry o); cbn; rewrite IH; reflexivity.
Qed.

Lemma waits_retry_events (l : list (event Err)) :
  waits (filter is_retry_event l) = waits l.
Proof.
  induction l as [|ev l IH]; [reflexivity|].
  unfold waits in *. destruct ev; cbn; rewrite IH; reflexivity.
Qed.

(** Touches of the reset timer, wherever the reset is enabled. *)
Lemma run_touch_placed o c t s (script : list (attempt Err Val)) :
  0 < resetDelay o ->
  let '(s', l, r) := run gbd o c t s script in
  touch_placed l = true /\ (c = None -> count_touch l = count_wait l).
Proof.
  intros Hrd. revert t s.
  induction script as [|a rest IH]; intros t s; cbn [run].
  - cbn. auto.
  - destruct (cancelled_by c (t + dur a)) eqn:Hc0;
      [cbn; split; [reflexivity|intros ->; discriminate]|].
    destruct (ending a) as [e|v]; [|cbn; auto].
    destruct (catch_body gbd o (fire_reset (t + dur a) s) e) as [[s2 l2] [e'|d]] eqn:Hcb.
    + unfold catch_body in Hcb.
      destruct (negb (wantRetry o e)); [injection Hcb as <- <- _; cbn; auto|].
      destruct (totalRetry o <=? _)%nat; [injection Hcb as <- <- _; cbn; auto|].
      discriminate.
    + assert (Hl2 : exists n, l2 = (if onRetry o then [EOnRetry e n] else []) ++ [EWait d]).
      { unfold catch_body in Hcb.
        destruct (negb (wantRetry o e)); [discriminate|].
        destruct (totalRetry o <=? _)%nat; [discriminate|].
        injection Hcb as _ <- <-. eauto. }
      destruct Hl2 as [n ->].
      destruct (cancelled_by c (t + dur a + d)) eqn:Hc1.
      * split; [destruct (onRetry o); reflexivity|].
        intros ->. discriminate.
      * unfold touch. destruct (Z.ltb_spec 0 (resetDelay o)); [|lia].
        specialize (IH (t + dur a + d)
          (mkWstate (retryCount (fire_reset (t + dur a + d) s2)) (Some (t + dur a + d + resetDelay o)))).
        destruct (run_head gbd o c (t + dur a + d)
          (mkWstate (retryCount (fire_reset (t + dur a + d) s2)) (Some (t + dur a + d + resetDelay o))) rest)
          as (s4 & l4 & r & Hr).
        rewrite Hr in IH |- *. destruct IH as [IH1 IH2].
        split.
        -- destruct (onRetry o); cbn in IH1 |- *; rewrite Z.eqb_refl; exact IH1.
        -- intros ->. specialize (IH2 eq_refl).
           change (EAttempt t :: ?x) with ([EAttempt t] ++ x).
           rewrite !count_wait_app, !count_touch_app.
           destruct (onRetry o); cbn in IH2 |- *; lia.
Qed.

(** With the reset disabled the reset timer is never touched, whatever
    the wrapper's state. *)
Lemma run_no_touch o c t s (script : list (attempt Err Val)) :
  resetDelay o <= 0 ->
  let '(_, l, _) := run gbd o c t s script in count_touch l = 0%nat.
Proof.
  intros Hrd. revert t s.
  induction script as [|a rest IH]; intros t s; cbn [run]; [reflexivity|].
  destruct (cancelled_by c (t + dur a)); [reflexivity|].
  destruct (ending a) as [e|v]; [|reflexivity].
  unfold catch_body.
  destruct (negb (wantRetry o e)); [reflexivity|].
  destruct (totalRetry o <=? _)%nat; [reflexivity|].
  destruct (cancelled_by c _).
  - destruct (onRetry o); reflexivity.
  - rewrite touch_disabled by exact Hrd.
    match goal with |- context [run gbd o c ?tw ?st rest] =>
      specialize (IH tw st); destruct (run gbd o c tw st rest) as [[s4 l4] r] end.
    change (EAttempt t :: ?x) with ([EAttempt t] ++ x).
    rewrite !count_touch_app, IH.
    destruct (onRetry o); reflexivity.
Qed.

End Chains.

(** * The claims *)

Section Claims.
Context {Err Val : Type} (gbd : Z -> nat -> Z).

(** C1 (as amended). With the reset disabled ([resetDelay <= 0]) and an
    invocation that starts with the counter at 0, an operation that always
    fails with retryable errors is retried exactly [totalRetry] times
    ([totalRetry + 1] attempts), then the give-up error is surfaced; the
    scripted attempts after that are never started. *)
Theorem C1_exactly_N_retries (o : options Err) t (fs : list (Z * Err)) (d : Z) (e : Err)
    (rest : list (attempt Err Val)) :
  resetDelay o <= 0 ->
  forallb (fun p => wantRetry o (snd p)) fs = true ->
  wantRetry o e = true ->
  length fs = totalRetry o ->
  let '(s', l, r) := run gbd o None t wstate_init (failing fs ++ mkAttempt d (Fails e) :: rest) in
  count_wait l = totalRetry o /\ count_attempts l = S (totalRetry o) /\
  exists tf, r = RError tf (selectError o e (S (totalRetry o))).
Proof.
  intros Hrd Hall He Hlen.
  destruct (run_failing_prefix gbd o t wstate_init fs (mkAttempt d (Fails e) :: rest)
              Hrd eq_refl Hall) as (t' & pre & _ & Ha & Hw & Hr); [cbn; lia|].
  rewrite Hr. change (retryCount wstate_init + length fs)%nat with (length fs).
  assert (Hc : catch_body gbd o (fire_reset (t' + d) (mkWstate (length fs) None)) e =
    (mkWstate (S (length fs)) None, [], Throw (selectError o e (S (length fs))))).
  { rewrite fire_reset_none by reflexivity. apply catch_body_exhausted; [exact He|cbn; lia]. }
  rewrite (run_cons_throw gbd o None t' _ (mkAttempt d (Fails e)) rest e _ _ _ eq_refl eq_refl Hc).
  rewrite count_wait_app, count_attempts_app, Hw, Ha, Hlen. cbn.
  split; [lia|]. split; [lia|]. eauto.
Qed.

(** C2 (as amended). The counter lives in the closure of
    [retryWithBackoff] / [retryableFuncWithBackoff]: an invocation starts
    from the state the previous one left.  With the reset disabled, the
    counter after an invocation is at least the counter before it plus the
    retries that invocation performed: budgets are shared, not fresh. *)
Theorem C2_counter_carried_across_invocations (w : options Err * wstate) c t
    (script : list (attempt Err Val)) :
  resetDelay (fst w) <= 0 -> resetTimer (snd w) = None ->
  let '(w', l, _) := invoke gbd w c t script in
  fst w' = fst w /\ (retryCount (snd w) + count_wait l <= retryCount (snd w'))%nat /\
  resetTimer (snd w') = None.
Proof.
  intros Hrd Hn. destruct w as [o s]. unfold invoke. cbn [fst snd] in *.
  pose proof (run_count_grows gbd o c t s script Hrd Hn) as H.
  destruct (run gbd o c t s script) as [[s' l] r]. cbn.
  destruct H as (H1 & H2 & _). auto.
Qed.

(** C3 (as amended). On give-up the surfaced error is
    [selectError o e n] -- [errorSelector(error, n)] when configured, the
    original error otherwise -- where [n] is the counter after the failure
    was handled: unchanged when [shouldRetry] refused, incremented when the
    budget was exhausted. *)
Theorem C3_give_up_error (o : options Err) c t s (a : attempt Err Val) rest e s2 l2 e' :
  cancelled_by c (t + dur a) = false -> ending a = Fails e ->
  catch_body gbd o (fire_reset (t + dur a) s) e = (s2, l2, Throw e') ->
  run gbd o c t s (a :: rest) = (s2, EAttempt t :: l2, RError (t + dur a) e') /\
  e' = selectError o e (retryCount s2) /\
  (errorSelector o = None -> e' = e) /\
  retryCount s2 = (if wantRetry o e then S (retryCount (fire_reset (t + dur a) s))
                   else retryCount (fire_reset (t + dur a) s)).
Proof.
  intros H1 H2 H3. split; [exact (run_cons_throw gbd o c t s a rest e s2 l2 e' H1 H2 H3)|].
  unfold catch_body in H3.
  destruct (wantRetry o e); cbn in H3.
  - destruct (totalRetry o <=? _)%nat; [|discriminate].
    injection H3 as <- _ <-. cbn. unfold selectError. split; [reflexivity|].
    split; [intros ->; reflexivity|reflexivity].
  - injection H3 as <- _ <-. unfold selectError. split; [reflexivity|].
    split; [intros ->; reflexivity|reflexivity].
Qed.

(** C4 (as amended). An invocation whose counter starts at [c] (no reset
    pending, reset disabled) and that fails [N] times with retryable errors
    before succeeding, [c + N <= totalRetry]: [onRetry] is called once per
    retry with [c+1], ..., [c+N], each right before that retry's backoff
    timer is scheduled; the success is surfaced.  [c = 0] for the first
    invocation of a wrapper. *)
Theorem C4_onretry_sequence (o : options Err) t s (fs : list (Z * Err)) d (v : Val) :
  resetDelay o <= 0 -> resetTimer s = None -> onRetry o = true ->
  forallb (fun p => wantRetry o (snd p)) fs = true ->
  (retryCount s + length fs <= totalRetry o)%nat ->
  let '(s', l, r) := run gbd o None t s (failing fs ++ [mkAttempt d (Succeeds v)]) in
  filter is_retry_event l = expected_retries gbd o (S (retryCount s)) (map snd fs) /\
  retryCount s' = (retryCount s + length fs)%nat /\ exists tf, r = RSuccess tf v.
Proof.
  intros Hrd Hn _ Hall Hle.
  destruct (run_failing_prefix gbd o t s fs [mkAttempt d (Succeeds v)] Hrd Hn Hall Hle)
    as (t' & pre & Hf & _ & _ & Hr).
  rewrite Hr. cbn [run fire_reset resetTimer cancelled_by ending dur].
  rewrite filter_app, Hf. cbn. rewrite app_nil_r. eauto.
Qed.

(** C5. With [resetDelay <= 0] no reset timeout is ever armed, the
    counter never goes down and [debounceRetryCount] never runs.  With
    [resetDelay > 0], when a failure is retried and the re-established
    operation then stays quiet for longer than [resetDelay], everything
    from the re-establishment on behaves exactly as a freshly created
    wrapper (counter 0, full budget). *)
Theorem C5_reset_timer :
  (forall (o : options Err) c t s (script : list (attempt Err Val)),
     resetDelay o <= 0 -> resetTimer s = None ->
     let '(s', l, _) := run gbd o c t s script in
     resetTimer s' = None /\ (retryCount s <= retryCount s')%nat /\ count_touch l = 0%nat) /\
  (forall (o : options Err) t s (a0 a1 : attempt Err Val) rest e0,
     0 < resetDelay o -> ending a0 = Fails e0 -> wantRetry o e0 = true ->
     (retryCount (fire_reset (t + dur a0) s) < totalRetry o)%nat ->
     resetDelay o < dur a1 ->
     exists tw pre,
       run gbd o None t s (a0 :: a1 :: rest) =
       (let '(s', l, r) := run gbd o None tw wstate_init (a1 :: rest) in (s', pre ++ l, r))).
Proof.
  split.
  - intros o c t s script Hrd Hn.
    pose proof (run_count_grows gbd o c t s script Hrd Hn) as H.
    destruct (run gbd o c t s script) as [[s' l] r].
    destruct H as (H1 & H2 & H3). repeat split; auto; lia.
  - intros o t s a0 a1 rest e0 Hrd Ha0 He0 Hlt Hq.
    set (s1 := fire_reset (t + dur a0) s) in *.
    set (n := S (retryCount s1)).
    set (tw := t + dur a0 + gbd (retryDelay o) n).
    set (s2 := mkWstate n (resetTimer s1)).
    set (s3 := mkWstate (retryCount (fire_reset tw s2)) (Some (tw + resetDelay o))).
    assert (Ht : touch o tw (fire_reset tw s2) = (s3, [ETouch tw])).
    { unfold touch. destruct (Z.ltb_spec 0 (resetDelay o)); [reflexivity|lia]. }
    rewrite (run_cons_retry gbd o None t s a0 (a1 :: rest) e0 s2 _ _ s3 [ETouch tw]
               eq_refl Ha0 (catch_body_retry gbd o s1 e0 He0 Hlt) eq_refl Ht).
    rewrite (run_after_reset gbd o None _ s3 wstate_init a1 rest eq_refl).
    2: { unfold fire_reset. cbn [resetTimer s3 wstate_init].
         rewrite (proj2 (Z.leb_le _ _)); [reflexivity|unfold tw, n; lia]. }
    change (t + dur a0 + gbd (retryDelay o) (S (retryCount s1))) with tw.
    exists tw, (EAttempt t :: ((if onRetry o then [EOnRetry e0 n] else []) ++
                 [EWait (gbd (retryDelay o) n)]) ++ [ETouch tw]).
    destruct (run gbd o None tw wstate_init (a1 :: rest)) as [[s4 l4] r].
    cbn [app]. rewrite <- !app_assoc. reflexivity.
Qed.

(** C6. [shouldRetry] (default: always) is consulted first: when it
    refuses, the first failure is surfaced at once -- no [onRetry], no
    backoff timer, no further attempt -- as [errorSelector(error, count)]
    or the error itself, with the counter left untouched, whatever the
    counter and [totalRetry] are. *)
Theorem C6_should_retry_false (o : options Err) c t s (a : attempt Err Val) rest e :
  cancelled_by c (t + dur a) = false -> ending a = Fails e ->
  (shouldRetry o = None -> wantRetry o e = true) /\
  (wantRetry o e = false ->
   run gbd o c t s (a :: rest) =
     (fire_reset (t + dur a) s, [EAttempt t],
      RError (t + dur a) (selectError o e (retryCount (fire_reset (t + dur a) s))))).
Proof.
  intros H1 H2. split.
  - unfold wantRetry. intros ->. reflexivity.
  - intros Hw. exact (run_cons_throw gbd o c t s a rest e _ _ _ H1 H2
                        (catch_body_no_retry gbd o _ e Hw)).
Qed.

(** C7 (as amended). The backoff of a retry is
    [getBackedoffDelay(retryDelay, n)] with [n] the counter after its
    increment (the number passed to [onRetry]).  Along a run of retryable
    failures (reset disabled) the delays use [c+1], [c+2], ... where [c] is
    the counter when the run starts -- 1, 2, ... only when it starts at 0. *)
Theorem C7_backoff_attempt_number :
  (forall (o : options Err) s e s' l d,
     catch_body gbd o s e = (s', l, RetryAfter d) ->
     retryCount s' = S (retryCount s) /\ d = gbd (retryDelay o) (retryCount s') /\
     waits l = [EWait d] /\
     (onRetry o = true -> l = [EOnRetry e (retryCount s'); EWait d])) /\
  (forall (o : options Err) t s (fs : list (Z * Err)) (rest : list (attempt Err Val)),
     resetDelay o <= 0 -> resetTimer s = None ->
     forallb (fun p => wantRetry o (snd p)) fs = true ->
     (retryCount s + length fs <= totalRetry o)%nat ->
     exists t' pre,
       waits pre = map (fun i => EWait (gbd (retryDelay o) i)) (seq (S (retryCount s)) (length fs)) /\
       run gbd o None t s (failing fs ++ rest) =
       (let '(s', l, r) := run gbd o None t' (mkWstate (retryCount s + length fs) None) rest
        in (s', pre ++ l, r))).
Proof.
  split.
  - intros o s e s' l d H. unfold catch_body in H.
    destruct (negb (wantRetry o e)); [discriminate|].
    destruct (totalRetry o <=? retryCount s)%nat; [discriminate|].
    injection H as <- <- <-. cbn. repeat split.
    + destruct (onRetry o); reflexivity.
    + intros ->. reflexivity.
  - intros o t s fs rest Hrd Hn Hall Hle.
    destruct (run_failing_prefix gbd o t s fs rest Hrd Hn Hall Hle)
      as (t' & pre & Hf & _ & _ & Hr).
    exists t', pre. split; [|exact Hr].
    rewrite <- waits_retry_events, Hf, waits_expected, length_map. reflexivity.
Qed.

(** C8 (as amended). With [resetDelay > 0], [debounceRetryCount] runs
    exactly when a backoff timer fires: every touch directly follows a
    backoff timer and directly precedes the re-run of the operation at the
    same instant, whatever that re-run then does; without cancellation
    there are as many touches as backoff timers.  With [resetDelay <= 0]
    the reset timer is never touched. *)
Theorem C8_touch_when_delay_elapses :
  (forall (o : options Err) c t s (script : list (attempt Err Val)),
     0 < resetDelay o ->
     let '(_, l, _) := run gbd o c t s script in
     touch_placed l = true /\ (c = None -> count_touch l = count_wait l)) /\
  (forall (o : options Err) c t s (script : list (attempt Err Val)),
     resetDelay o <= 0 ->
     let '(_, l, _) := run gbd o c t s script in count_touch l = 0%nat).
Proof.
  split.
  - intros o c t s script Hrd. pose proof (run_touch_placed gbd o c t s script Hrd) as H.
    destruct (run gbd o c t s script) as [[s' l] r]. exact H.
  - intros o c t s script Hrd. exact (run_no_touch gbd o c t s script Hrd).
Qed.

(** C9. Unsubscribing while a backoff timer is pending (after the failure
    at [t + dur a], no later than the timer's end): the timer never fires,
    so no reset touch, no further attempt, and the caller gets neither a
    value nor an error. *)
Theorem C9_cancel_mid_wait (o : options Err) tc t s (a : attempt Err Val) rest e s2 l2 d :
  t + dur a < tc -> tc <= t + dur a + d -> ending a = Fails e ->
  catch_body gbd o (fire_reset (t + dur a) s) e = (s2, l2, RetryAfter d) ->
  run gbd o (Some tc) t s (a :: rest) = (s2, EAttempt t :: l2, RCancelled) /\
  count_attempts (EAttempt t :: l2) = 1%nat /\ count_touch (EAttempt t :: l2) = 0%nat.
Proof.
  intros H1 H2 H3 H4.
  assert (Hc1 : cancelled_by (Some tc) (t + dur a) = false).
  { cbn. apply Z.leb_gt. lia. }
  assert (Hc2 : cancelled_by (Some tc) (t + dur a + d) = true).
  { cbn. apply Z.leb_le. lia. }
  assert (Hl2 : exists n, l2 = (if onRetry o then [EOnRetry e n] else []) ++ [EWait d]).
  { unfold catch_body in H4.
    destruct (negb (wantRetry o e)); [discriminate|].
    destruct (totalRetry o <=? _)%nat; [discriminate|].
    injection H4 as _ <- <-. eauto. }
  split.
  - cbn [run]. rewrite Hc1, H3, H4, Hc2. reflexivity.
  - destruct Hl2 as [n ->]. destruct (onRetry o); split; reflexivity.
Qed.

(** C10 (as amended). A refusal by [shouldRetry] leaves the counter and
    passes it to [errorSelector]; an exhausted budget increments the
    counter first and passes the incremented value.  With the reset
    disabled, an invocation starting at counter [c <= totalRetry] gives
    [errorSelector] [totalRetry + 1] on exhaustion, and [c + k] when
    [shouldRetry] refuses after [k] retries. *)
Theorem C10_give_up_counter :
  (forall (o : options Err) s e, wantRetry o e = false ->
     catch_body gbd o s e = (s, [], Throw (selectError o e (retryCount s)))) /\
  (forall (o : options Err) s e, wantRetry o e = true -> (totalRetry o <= retryCount s)%nat ->
     catch_body gbd o s e =
       (mkWstate (S (retryCount s)) (resetTimer s), [], Throw (selectError o e (S (retryCount s))))) /\
  (forall (o : options Err) t s (fs : list (Z * Err)) d e (rest : list (attempt Err Val)),
     resetDelay o <= 0 -> resetTimer s = None ->
     forallb (fun p => wantRetry o (snd p)) fs = true ->
     (retryCount s + length fs = totalRetry o)%nat -> wantRetry o e = true ->
     exists tf, snd (run gbd o None t s (failing fs ++ mkAttempt d (Fails e) :: rest)) =
                RError tf (selectError o e (S (totalRetry o)))) /\
  (forall (o : options Err) t s (fs : list (Z * Err)) d e (rest : list (attempt Err Val)),
     resetDelay o <= 0 -> resetTimer s = None ->
     forallb (fun p => wantRetry o (snd p)) fs = true ->
     (retryCount s + length fs <= totalRetry o)%nat -> wantRetry o e = false ->
     exists tf, snd (run gbd o None t s (failing fs ++ mkAttempt d (Fails e) :: rest)) =
                RError tf (selectError o e (retryCount s + length fs))).
Proof.
  split; [exact (catch_body_no_retry gbd)|].
  split; [exact (catch_body_exhausted gbd)|].
  split.
  - intros o t s fs d e rest Hrd Hn Hall Heq He.
    destruct (run_failing_prefix gbd o t s fs (mkAttempt d (Fails e) :: rest) Hrd Hn Hall)
      as (t' & pre & _ & _ & _ & Hr); [lia|].
    rewrite Hr.
    assert (Hc : catch_body gbd o (fire_reset (t' + d) (mkWstate (retryCount s + length fs) None)) e =
      (mkWstate (S (retryCount s + length fs)) None, [],
       Throw (selectError o e (S (retryCount s + length fs))))).
    { rewrite fire_reset_none by reflexivity. apply catch_body_exhausted; [exact He|cbn; lia]. }
    rewrite (run_cons_throw gbd o None t' _ (mkAttempt d (Fails e)) rest e _ _ _ eq_refl eq_refl Hc).
    cbn. rewrite Heq. eauto.
  - intros o t s fs d e rest Hrd Hn Hall Hle He.
    destruct (run_failing_prefix gbd o t s fs (mkAttempt d (Fails e) :: rest) Hrd Hn Hall Hle)
      as (t' & pre & _ & _ & _ & Hr).
    rewrite Hr.
    rewrite (run_cons_throw gbd o None t' _ (mkAttempt d (Fails e)) rest e _ _ _ eq_refl eq_refl
               (catch_body_no_retry gbd o _ e He)).
    cbn. eauto.
Qed.

End Claims.

(** * Concrete scenarios: counterexamples to claims as first stated *)

(** C1: with [resetDelay = 1] and attempts that each fail 5 time units
    after they start, the reset fires during every re-run, so a wrapper
    with [totalRetry = 1] keeps retrying: three backoff timers for three
    scripted failures, and still retrying. *)
Lemma C1_reset_grants_extra_retries :
  let '(_, l, r) := run backoff_model opts_reset1 None 0 wstate_init
                     (failing [(5, 7%nat); (5, 7%nat); (5, 7%nat)] : list (attempt nat nat)) in
  count_wait l = 3%nat /\ totalRetry opts_reset1 = 1%nat /\ r = RPending.
Proof. vm_compute. auto. Qed.

(** C2: two calls of one wrapper share the counter: the first call's retry
    uses up the budget of [totalRetry = 1], so the second call gives up on
    its first failure.  Same for both exported functions. *)
Lemma C2_counter_shared_between_calls :
  (let '(w1, _, r1) := invoke backoff_model (retryableFuncWithBackoff opts_shared) None 0 (fail_then_ok 7 1) in
   let '(_, l2, r2) := invoke backoff_model w1 None 1000 (fail_then_ok 7 1) in
   r1 = RSuccess 110 1%nat /\ retryCount (snd w1) = 1%nat /\ l2 = [EAttempt 1000] /\ r2 = RError 1005 7%nat) /\
  (let '(w1, _, r1) := invoke backoff_model (retryWithBackoff opts_shared) None 0 (fail_then_ok 7 1) in
   let '(_, l2, r2) := invoke backoff_model w1 None 1000 (fail_then_ok 7 1) in
   r1 = RSuccess 110 1%nat /\ retryCount (snd w1) = 1%nat /\ l2 = [EAttempt 1000] /\ r2 = RError 1005 7%nat).
Proof. vm_compute. repeat split. Qed.

(** C3: with [totalRetry = 0] and [errorSelector = (e, n) => n], the first
    failure surfaces [1], not [errorSelector(error, 0)]. *)
Lemma C3_selector_gets_incremented_count :
  snd (run (Val:=nat) backoff_model opts_sel None 0 wstate_init [mkAttempt 5 (Fails 7%nat)])
    = RError 5 1%nat /\
  snd (run (Val:=nat) backoff_model opts_sel None 0 wstate_init [mkAttempt 5 (Fails 7%nat)])
    <> RError 5 (selectError opts_sel 7%nat (retryCount wstate_init)).
Proof. vm_compute. split; [reflexivity|discriminate]. Qed.

(** C4: a second call of the same wrapper that fails once then succeeds
    calls [onRetry] with 2, not 1. *)
Lemma C4_second_call_onretry_two :
  let '(w1, l1, _) := invoke backoff_model (retryableFuncWithBackoff opts_two) None 0 (fail_then_ok 7 1) in
  let '(_, l2, r2) := invoke backoff_model w1 None 1000 (fail_then_ok 8 2) in
  l1 = [EAttempt 0; EOnRetry 7%nat 1; EWait 100; EAttempt 105] /\
  l2 = [EAttempt 1000; EOnRetry 8%nat 2; EWait 200; EAttempt 1205] /\ r2 = RSuccess 1210 2%nat.
Proof. vm_compute. repeat split. Qed.

(** C7: in that second call the first retry's backoff uses attempt
    number 2. *)
Lemma C7_second_call_first_retry_uses_two :
  let '(w1, _, _) := invoke backoff_model (retryableFuncWithBackoff opts_two) None 0 (fail_then_ok 7 1) in
  waits (snd (fst (invoke backoff_model w1 None 1000 (fail_then_ok 8 2)))) = [EWait (backoff_model 100 2)] /\
  backoff_model 100 2 <> backoff_model 100 1.
Proof. vm_compute. split; [reflexivity|discriminate]. Qed.

(** C8: the reset timer is touched at 105, when the backoff timer fires,
    although the re-run then fails without producing anything. *)
Lemma C8_touch_before_reattempt_result :
  run backoff_model opts_touch None 0 wstate_init
    (failing [(5, 7%nat); (5, 7%nat)] : list (attempt nat nat)) =
  (mkWstate 2 (Some 115), [EAttempt 0; EWait 100; ETouch 105; EAttempt 105], RError 110 7%nat).
Proof. vm_compute. reflexivity. Qed.

(** C10: after a call that exhausted a budget of [totalRetry = 0], a second
    call gives [errorSelector] 2, not [totalRetry + 1]. *)
Lemma C10_second_give_up_gets_two :
  let '(w1, _, r1) := invoke backoff_model (retryableFuncWithBackoff opts_sel) None 0
                        [mkAttempt (Val:=nat) 5 (Fails 7%nat)] in
  let '(_, _, r2) := invoke backoff_model w1 None 100 [mkAttempt (Val:=nat) 5 (Fails 7%nat)] in
  r1 = RError 5 1%nat /\ r2 = RError 105 2%nat /\ (2 <> totalRetry opts_sel + 1)%nat.
Proof. vm_compute. split; [reflexivity|split; [reflexivity|discriminate]]. Qed.

(** * The theorems at concrete inputs *)

Ltac concrete := vm_compute; first [reflexivity | lia | discriminate | idtac].

Lemma C1_witness :
  let '(_, l, r) := run backoff_model opts_two None 0 wstate_init
     (failing [(5, 1%nat); (5, 2%nat)] ++ mkAttempt 5 (Fails 3%nat) :: fail_then_ok 4 5) in
  count_wait l = totalRetry opts_two /\ count_attempts l = S (totalRetry opts_two) /\
  exists tf, r = RError tf (selectError opts_two 3%nat (S (totalRetry opts_two))).
Proof.
  apply (C1_exactly_N_retries backoff_model opts_two 0 [(5, 1%nat); (5, 2%nat)] 5 3%nat
           (fail_then_ok 4 5)); concrete.
Defined.

Lemma C2_witness :
  let '(w', l, _) := invoke backoff_model (retryableFuncWithBackoff opts_shared) None 0 (fail_then_ok 7 1) in
  fst w' = fst (retryableFuncWithBackoff opts_shared) /\
  (retryCount (snd (retryableFuncWithBackoff opts_shared)) + count_wait l <= retryCount (snd w'))%nat /\
  resetTimer (snd w') = None.
Proof.
  apply (C2_counter_carried_across_invocations backoff_model (retryableFuncWithBackoff opts_shared)
           None 0 (fail_then_ok 7 1)); concrete.
Defined.

Lemma C3_witness :
  run backoff_model opts_sel None 0 wstate_init [mkAttempt (Val:=nat) 5 (Fails 7%nat)] =
    (mkWstate 1 None, [EAttempt 0], RError 5 1%nat) /\
  1%nat = selectError opts_sel 7%nat (retryCount (mkWstate 1 None)) /\
  (errorSelector opts_sel = None -> 1%nat = 7%nat) /\
  retryCount (mkWstate 1 None) =
    (if wantRetry opts_sel 7%nat then S (retryCount (fire_reset 5 wstate_init))
     else retryCount (fire_reset 5 wstate_init)).
Proof.
  apply (C3_give_up_error backoff_model opts_sel None 0 wstate_init (mkAttempt 5 (Fails 7%nat)) []
           7%nat (mkWstate 1 None) [] 1%nat); concrete.
Defined.

Lemma C4_witness :
  let '(s', l, r) := run backoff_model opts_two None 0 wstate_init
     (failing [(5, 7%nat); (5, 8%nat)] ++ [mkAttempt 5 (Succeeds 1%nat)]) in
  filter is_retry_event l = expected_retries backoff_model opts_two 1 [7%nat; 8%nat] /\
  retryCount s' = 2%nat /\ exists tf, r = RSuccess tf 1%nat.
Proof.
  apply (C4_onretry_sequence backoff_model opts_two 0 wstate_init [(5, 7%nat); (5, 8%nat)] 5 1%nat);
    concrete.
Defined.

Lemma C5_witness :
  exists tw pre,
    run backoff_model opts_reset1 None 0 wstate_init
      [mkAttempt 5 (Fails 7%nat); mkAttempt 5 (Fails 8%nat); mkAttempt (Val:=nat) 5 (Fails 9%nat)] =
    (let '(s', l, r) := run backoff_model opts_reset1 None tw wstate_init
                          [mkAttempt 5 (Fails 8%nat); mkAttempt (Val:=nat) 5 (Fails 9%nat)]
     in (s', pre ++ l, r)).
Proof.
  apply (proj2 (C5_reset_timer backoff_model) opts_reset1 0 wstate_init
           (mkAttempt 5 (Fails 7%nat)) (mkAttempt 5 (Fails 8%nat)) [mkAttempt 5 (Fails 9%nat)] 7%nat);
    concrete.
Defined.

Lemma C6_witness :
  run backoff_model opts_noretry None 0 wstate_init [mkAttempt (Val:=nat) 5 (Fails 7%nat)] =
    (wstate_init, [EAttempt 0], RError 5 7%nat).
Proof.
  apply (proj2 (C6_should_retry_false backoff_model opts_noretry None 0 wstate_init
                  (mkAttempt 5 (Fails 7%nat)) [] 7%nat eq_refl eq_refl)); concrete.
Defined.

Lemma C7_witness :
  retryCount (mkWstate 1 None) = S (retryCount wstate_init) /\
  100 = backoff_model (retryDelay opts_two) (retryCount (mkWstate 1 None)) /\
  waits [EOnRetry 7%nat 1; EWait 100] = [EWait 100] /\
  (onRetry opts_two = true -> [EOnRetry 7%nat 1; EWait 100] = [EOnRetry 7%nat (retryCount (mkWstate 1 None)); EWait 100]).
Proof.
  apply (proj1 (C7_backoff_attempt_number (Val:=nat) backoff_model) opts_two wstate_init 7%nat
           (mkWstate 1 None) [EOnRetry 7%nat 1; EWait 100] 100); concrete.
Defined.

Lemma C8_witness :
  (let '(_, l, _) := run backoff_model opts_touch None 0 wstate_init
                       (failing [(5, 7%nat); (5, 7%nat)] : list (attempt nat nat)) in
   touch_placed l = true /\ (@None Z = None -> count_touch l = count_wait l)) /\
  (let '(_, l, _) := run backoff_model opts_two None 0 wstate_init
                       (failing [(5, 7%nat); (5, 7%nat)] : list (attempt nat nat)) in
   count_touch l = 0%nat).
Proof.
  split.
  - apply (proj1 (C8_touch_when_delay_elapses (Val:=nat) backoff_model) opts_touch None 0 wstate_init
             (failing [(5, 7%nat); (5, 7%nat)])); concrete.
  - apply (proj2 (C8_touch_when_delay_elapses (Val:=nat) backoff_model) opts_two None 0 wstate_init
             (failing [(5, 7%nat); (5, 7%nat)])); concrete.
Defined.

Lemma C9_witness :
  run backoff_model opts_two (Some 50) 0 wstate_init (mkAttempt 5 (Fails 7%nat) :: fail_then_ok 8 1) =
    (mkWstate 1 None, [EAttempt 0; EOnRetry 7%nat 1; EWait 100], RCancelled) /\
  count_attempts [EAttempt (Err:=nat) 0; EOnRetry 7%nat 1; EWait 100] = 1%nat /\
  count_touch [EAttempt (Err:=nat) 0; EOnRetry 7%nat 1; EWait 100] = 0%nat.
Proof.
  apply (C9_cancel_mid_wait backoff_model opts_two 50 0 wstate_init (mkAttempt 5 (Fails 7%nat))
           (fail_then_ok 8 1) 7%nat (mkWstate 1 None) [EOnRetry 7%nat 1; EWait 100] 100); concrete.
Defined.

Lemma C10_witness :
  exists tf, snd (run backoff_model opts_sel None 0 wstate_init
                    (failing [] ++ mkAttempt 5 (Fails 7%nat) :: fail_then_ok 8 1)) =
             RError tf (selectError opts_sel 7%nat (S (totalRetry opts_sel))).
Proof.
  apply (proj1 (proj2 (proj2 (C10_give_up_counter backoff_model))) opts_sel 0 wstate_init []
           5 7%nat (fail_then_ok 8 1)); concrete.
Defined.

(** * Further properties of retry.js *)

Lemma debounce_run_armed (delay t : Z) (ts : list Z) :
  debounce_run delay (Some (t + delay)) ts = debounce_expected delay t ts.
Proof.
  revert t. induction ts as [|t' ts IH]; intros t; cbn; [reflexivity|].
  rewrite IH. reflexivity.
Qed.

Lemma last_default (x : Z) (l : list Z) (d1 d2 : Z) : last (x :: l) d1 = last (x :: l) d2.
Proof.
  revert x. induction l as [|y l IH]; intros x; [reflexivity|].
  change (last (y :: l) d1 = last (y :: l) d2). apply IH.
Qed.

Lemma debounce_expected_last (delay t : Z) (ts : list Z) :
  exists pre, debounce_expected delay t ts = pre ++ [last (t :: ts) t + delay] /\
              (length pre <= length ts)%nat.
Proof.
  revert t. induction ts as [|t' ts IH]; intros t; cbn [debounce_expected].
  - exists []. split; [reflexivity|apply Nat.le_refl].
  - destruct (IH t') as (pre & Hpre & Hlen).
    exists ((if t + delay <? t' then [t + delay] else []) ++ pre).
    rewrite Hpre, app_assoc. split.
    + change (last (t :: t' :: ts) t) with (last (t' :: ts) t).
      rewrite (last_default t' ts t t'). reflexivity.
    + rewrite length_app. cbn [length]. destruct (t + delay <? t'); cbn [length]; lia.
Qed.

(** X1 (debounce, retry.js lines 12-20): for a positive delay and
    starting from no pending timeout, the debounced function runs [delay]
    after a call exactly when the next call comes later than that, and
    always [delay] after the last call. *)
Theorem X1_debounce_runs (delay t : Z) (ts : list Z) :
  0 < delay ->
  debounce_run delay None (t :: ts) = debounce_expected delay t ts.
Proof. intros _. cbn [debounce_run]. apply debounce_run_armed. Qed.

(** X2 (debounce, retry.js lines 12-20): for a positive delay, a debounced
    function runs at most once per call, and a non-empty sequence of calls
    always ends with a run [delay] after the last call, so after it. *)
Theorem X2_debounce_last_and_count (delay t : Z) (ts : list Z) :
  0 < delay ->
  exists pre, debounce_run delay None (ts ++ [t]) = pre ++ [t + delay] /\
              (length pre <= length ts)%nat /\ t < t + delay.
Proof.
  intros Hd. destruct ts as [|t0 ts].
  - exists []. repeat split; [cbn; lia|lia].
  - cbn [app debounce_run]. rewrite debounce_run_armed.
    destruct (debounce_expected_last delay t0 (ts ++ [t])) as (pre & Hpre & Hlen).
    exists pre. repeat split.
    + rewrite Hpre. change (t0 :: ts ++ [t]) with ((t0 :: ts) ++ [t]).
      rewrite last_last. reflexivity.
    + rewrite length_app in Hlen. cbn in *. lia.
    + lia.
Qed.

Section RetryExtras.
Context {Err Val : Type} (gbd : Z -> nat -> Z).
Implicit Types (o : options Err) (s : wstate) (e : Err).

Lemma fire_reset_count t s : (retryCount (fire_reset t s) <= retryCount s)%nat.
Proof.
  unfold fire_reset. destruct (resetTimer s) as [tr|]; [|lia].
  destruct (tr <=? t); cbn; lia.
Qed.

Lemma touch_count o t s : retryCount (fst (touch o t s)) = retryCount s.
Proof. unfold touch. destruct (0 <? resetDelay o); reflexivity. Qed.

(** X4 (retry counter, lines 51 / 103): one run raises the closure's
    counter by at most one above the larger of its starting value and
    [totalRetry]: a retry only happens below the budget, and the give-up
    increment ends the run. *)
Theorem X4_counter_bound o c t s (script : list (attempt Err Val)) :
  (retryCount (fst (fst (run gbd o c t s script))) <=
     Nat.max (retryCount s) (totalRetry o) + 1)%nat.
Proof.
  revert t s. induction script as [|a rest IH]; intros t s; cbn [run]; [cbn; lia|].
  destruct (cancelled_by c (t + dur a)); [cbn; lia|].
  pose proof (fire_reset_count (t + dur a) s) as Hf.
  set (s1 := fire_reset (t + dur a) s) in *.
  destruct (ending a) as [e|v]; [|cbn; lia].
  unfold catch_body.
  destruct (negb (wantRetry o e)); [cbn; lia|].
  destruct (Nat.leb_spec (totalRetry o) (retryCount s1)); [cbn; lia|].
  destruct (cancelled_by c _); [cbn; lia|].
  match goal with |- context [touch o ?tw ?st] =>
    pose proof (touch_count o tw st) as Ht;
    pose proof (fire_reset_count tw (mkWstate (S (retryCount s1)) (resetTimer s1))) as Hf2;
    destruct (touch o tw st) as [s3 l3] end.
  match goal with |- context [run gbd o c ?tw s3 rest] =>
    specialize (IH tw s3); destruct (run gbd o c tw s3 rest) as [[s4 l4] r] end.
  cbn in *. lia.
Qed.

End RetryExtras.

(** * Lemmas on the string functions and the regular expressions *)

Ltac split_andb :=
  repeat match goal with
         | H : (_ && _)%bool = true |- _ => apply andb_prop in H; destruct H
         | H : (_ || _)%bool = false |- _ => apply orb_false_elim in H; destruct H
         end.

Lemma in_splits (a b : str) : In (a, b) (splits (a ++ b)).
Proof.
  revert b. induction a as [|c a IH]; intros b.
  - destruct b; left; reflexivity.
  - cbn [app splits]. right. apply (in_map (fun p => (c :: fst p, snd p)) _ (a, b)). apply IH.
Qed.

Lemma splits_in (l a b : str) : In (a, b) (splits l) -> l = a ++ b.
Proof.
  revert a b. induction l as [|c l IH]; intros a b H; cbn in H.
  - destruct H as [H|[]]. inversion H; reflexivity.
  - destruct H as [H|H]; [inversion H; reflexivity|].
    apply in_map_iff in H as ([a' b'] & Heq & Hin). cbn in Heq. inversion Heq; subst.
    rewrite (IH a' b Hin). reflexivity.
Qed.

Lemma suffixes_in (l t : str) : In t (suffixes l) -> exists p, l = p ++ t.
Proof.
  induction l as [|c l IH]; intros H; cbn in H.
  - destruct H as [H|[]]. subst. exists []. reflexivity.
  - destruct H as [H|H]; [subst; exists []; reflexivity|].
    destruct (IH H) as [p Hp]. exists (c :: p). rewrite Hp. reflexivity.
Qed.

Lemma in_suffixes (p t : str) : In t (suffixes (p ++ t)).
Proof.
  induction p as [|c p IH]; cbn; [destruct t; left; reflexivity|]. right. exact IH.
Qed.

Lemma ascii_eqb_true (a b : ascii) : Ascii.eqb a b = true -> a = b.
Proof. apply Ascii.eqb_eq. Qed.

(** A character excluded by a predicate that holds on all of [l] does not
    occur in [l]. *)
Lemma forallb_excludes (P : ascii -> bool) (c : ascii) (l : str) :
  forallb P l = true -> P c = false -> existsb (Ascii.eqb c) l = false.
Proof.
  induction l as [|x l IH]; intros H Hc; [reflexivity|]. cbn in H |- *. split_andb.
  destruct (Ascii.eqb_spec c x); [subst; congruence|]. cbn. auto.
Qed.

Lemma forallb_weaken (P Q : ascii -> bool) (l : str) :
  (forall c, P c = true -> Q c = true) -> forallb P l = true -> forallb Q l = true.
Proof.
  intros HPQ. induction l as [|x l IH]; intros H; [reflexivity|]. cbn in *. split_andb.
  rewrite (HPQ x), IH; auto.
Qed.

Lemma digits1_last (l : str) :
  digits1 l = true -> exists p c, l = p ++ [c] /\ is_digit c = true.
Proof.
  intros H. destruct l as [|x r]; [discriminate|].
  destruct (exists_last (l := x :: r) ltac:(discriminate)) as (p & c & Hpc).
  exists p, c. split; [exact Hpc|]. unfold digits1 in H. rewrite Hpc, forallb_app in H.
  split_andb. cbn in *. split_andb. assumption.
Qed.

Lemma mm_ss_last (l : str) :
  mm_ss l = true -> exists p c, l = p ++ [c] /\ is_digit c = true.
Proof.
  intros H. destruct l as [|a [|b [|c [|d [|e [|? ?]]]]]]; try discriminate.
  cbn in H. split_andb. exists [a; b; c; d], e. auto.
Qed.

Lemma npt_core_last (l : str) :
  npt_core l = true -> exists p c, l = p ++ [c] /\ is_digit c = true.
Proof.
  unfold npt_core. intros H. apply orb_prop in H as [H|H]; [apply orb_prop in H as [H|H]|].
  - apply mm_ss_last, H.
  - apply existsb_exists in H as ([a b] & Hin & H). apply splits_in in Hin. subst l.
    cbn in H. split_andb. destruct b as [|c r]; [discriminate|]. split_andb.
    apply ascii_eqb_true in H0. subst c.
    destruct (mm_ss_last r H1) as (p & c & -> & Hc).
    exists (a ++ ":"%char :: p), c. split; [|exact Hc]. rewrite <- app_assoc. reflexivity.
  - apply digits1_last, H.
Qed.

(** What [npt.test] accepts ends in a digit or a dot. *)
Lemma npt_test_last (s : str) :
  npt_test s = true ->
  exists p c, s = p ++ [c] /\ (is_digit c || Ascii.eqb c ".")%bool = true.
Proof.
  intros H. apply existsb_exists in H as (t & Hsuf & Hb).
  destruct (suffixes_in s t Hsuf) as [q ->].
  apply existsb_exists in Hb as ([a b] & Hin & Hab). apply splits_in in Hin. subst t.
  cbn in Hab. split_andb.
  destruct b as [|d r].
  - destruct (npt_core_last a H) as (p & c & -> & Hc).
    exists (q ++ p), c. rewrite Hc. split; [|reflexivity].
    rewrite app_nil_r, app_assoc. reflexivity.
  - cbn in H0. split_andb.
    destruct r as [|x r'].
    + exists (q ++ a), d. rewrite H0, orb_true_r. split; [|reflexivity].
      rewrite app_assoc. reflexivity.
    + destruct (exists_last (l := x :: r') ltac:(discriminate)) as (r0 & c & Hr).
      exists (q ++ a ++ d :: r0), c. split.
      * rewrite Hr. rewrite <- !app_assoc. reflexivity.
      * unfold digits0 in H1. rewrite Hr, forallb_app in H1. split_andb. cbn in H2.
        split_andb. rewrite H2. reflexivity.
Qed.

Lemma npt_test_digit_end (p : str) (c : ascii) :
  is_digit c = true -> npt_test (p ++ [c]) = true.
Proof.
  intros Hc. apply existsb_exists. exists [c]. split; [apply in_suffixes|].
  cbn -[is_digit npt_core]. unfold npt_core. cbn -[is_digit]. rewrite Hc. reflexivity.
Qed.

(** What [smpte.test] accepts ends in a digit. *)
Lemma smpte_test_last (s : str) :
  smpte_test s = true -> exists p c, s = p ++ [c] /\ is_digit c = true.
Proof.
  intros H. apply existsb_exists in H as ([x y] & Hin & H). apply splits_in in Hin. subst s.
  cbn -[is_digit smpte_tail digits1] in H. split_andb.
  destruct y as [|c1 [|a [|b [|c2 [|d [|e tl]]]]]]; try discriminate.
  cbn -[is_digit smpte_tail] in H0. split_andb.
  destruct tl as [|c [|a' [|b' [|p [|x' [|y' [|? ?]]]]]]]; cbn -[is_digit] in H1; try discriminate;
    split_andb.
  - exists (x ++ [c1; a; b; c2; d]), e. rewrite <- app_assoc. auto.
  - exists (x ++ [c1; a; b; c2; d; e; c; a']), b'. rewrite <- app_assoc. auto.
  - exists (x ++ [c1; a; b; c2; d; e; c; a'; b'; p; x']), y'. rewrite <- app_assoc. auto.
Qed.

(** Every string [smpte] accepts is accepted by [npt] too. *)
Lemma smpte_then_npt (s : str) : smpte_test s = true -> npt_test s = true.
Proof.
  intros H. destruct (smpte_test_last s H) as (p & c & -> & Hc).
  apply npt_test_digit_end, Hc.
Qed.

Lemma choose_not_smpte (start end_ : str) : choose_normalizer start end_ <> Some NormSMPTE.
Proof.
  unfold choose_normalizer.
  destruct (npt_test start && npt_test end_)%bool eqn:E1; [discriminate|].
  destruct (smpte_test start && smpte_test end_)%bool eqn:E2.
  - split_andb. rewrite (smpte_then_npt _ H), (smpte_then_npt _ H0) in E1. discriminate.
  - destruct (wallClock_test start && wallClock_test end_)%bool; [discriminate|].
    destruct (percentage_test start && percentage_test end_)%bool; discriminate.
Qed.

Lemma wallClock_first (c : ascii) (r : str) :
  wallClock_test (c :: r) = true -> is_digit c = true.
Proof.
  intros H. do 18 (destruct r as [|? r]; [discriminate|]).
  destruct (is_digit c) eqn:E; [reflexivity|]. cbn in H. rewrite E in H. discriminate.
Qed.

Lemma wallClock_dash (s : str) : wallClock_test s = true -> In "-"%char s.
Proof.
  intros H. do 19 (destruct s as [|? s]; [discriminate|]).
  cbn -[is_digit] in H. split_andb.
  repeat match goal with Hq : Ascii.eqb _ _ = true |- _ => apply ascii_eqb_true in Hq; subst end.
  do 4 right. left. reflexivity.
Qed.

Lemma percentage_chars_last (s : str) :
  percentage_test s = true -> forallb pct_char s = true /\ exists p, s = p ++ ["%"%char].
Proof.
  intros H. apply existsb_exists in H as ([x y] & Hin & H). apply splits_in in Hin. subst s.
  cbn in H. split_andb. apply existsb_exists in H0 as ([u v] & Hin & H0).
  apply splits_in in Hin. subst y. cbn in H0. split_andb.
  assert (Hv : forallb pct_char v = true /\ exists q, v = q ++ ["%"%char]).
  { destruct v as [|c [|d [|? ?]]]; cbn in H1; try discriminate; split_andb.
    - apply ascii_eqb_true in H1. subst. split; [reflexivity|]. exists []. reflexivity.
    - apply ascii_eqb_true in H1. apply ascii_eqb_true in H2. subst.
      split; [reflexivity|]. exists [" "%char]. reflexivity. }
  destruct Hv as [Hv [q Hq]]. split.
  - rewrite !forallb_app, Hv, andb_true_r. apply andb_true_intro. split.
    + apply (forallb_weaken is_digit); [|exact H].
      intros c Hc. unfold pct_char. rewrite Hc. reflexivity.
    + destruct u as [|c r]; [reflexivity|]. cbn in H0 |- *. split_andb.
      apply ascii_eqb_true in H0. subst c. cbn. apply (forallb_weaken is_digit).
      * intros c Hc. unfold pct_char. rewrite Hc. reflexivity.
      * destruct r; [discriminate|exact H2].
  - exists (x ++ u ++ q). rewrite Hq, <- !app_assoc. reflexivity.
Qed.

Lemma split_on_nosep (sep : ascii) (l : str) :
  existsb (Ascii.eqb sep) l = false -> split_on sep l = [l].
Proof.
  induction l as [|c l IH]; intros H; [reflexivity|]. cbn in H. split_andb.
  cbn. rewrite Ascii.eqb_sym, H, IH by exact H0. reflexivity.
Qed.

Lemma split_on_app (sep : ascii) (a b : str) :
  existsb (Ascii.eqb sep) a = false -> split_on sep (a ++ sep :: b) = a :: split_on sep b.
Proof.
  induction a as [|c a IH]; intros H; cbn; [rewrite Ascii.eqb_refl; reflexivity|].
  cbn in H. split_andb. rewrite Ascii.eqb_sym, H, IH by exact H0. reflexivity.
Qed.

Lemma strip_prefix_absent (c : ascii) (p l : str) :
  existsb (Ascii.eqb c) l = false -> strip_prefix (c :: p) l = None.
Proof.
  destruct l as [|d l]; intros H; [reflexivity|]. cbn in H |- *. split_andb.
  rewrite H. reflexivity.
Qed.

Lemma replace_first_absent (c : ascii) (p l : str) :
  existsb (Ascii.eqb c) l = false -> replace_first (c :: p) l = l.
Proof.
  induction l as [|d l IH]; intros H; [reflexivity|].
  cbn [replace_first]. rewrite strip_prefix_absent by exact H.
  cbn in H. split_andb. rewrite IH by exact H0. reflexivity.
Qed.

(** Without the letters s, n and c, no prefix is removed from the start. *)
Lemma strip_start_id (l : str) :
  existsb (Ascii.eqb "s") l = false -> existsb (Ascii.eqb "n") l = false ->
  existsb (Ascii.eqb "c") l = false ->
  replace_first (lit "clock:") (strip_npt (strip_smpte l)) = l.
Proof.
  intros Hs Hn Hc. unfold strip_smpte, strip_npt.
  change (lit "smpte") with ("s"%char :: lit "mpte"). rewrite strip_prefix_absent by exact Hs.
  change (lit "npt:") with ("n"%char :: lit "pt:"). rewrite strip_prefix_absent by exact Hn.
  change (lit "npt=") with ("n"%char :: lit "pt="). rewrite strip_prefix_absent by exact Hn.
  change (lit "clock:") with ("c"%char :: lit "lock:"). apply replace_first_absent, Hc.
Qed.

Lemma choose_empty_start (e : str) : choose_normalizer [] e = None.
Proof. reflexivity. Qed.

Lemma choose_empty_end (s : str) : choose_normalizer s [] = None.
Proof.
  unfold choose_normalizer.
  replace (npt_test []) with false by reflexivity.
  replace (smpte_test []) with false by reflexivity.
  replace (wallClock_test []) with false by reflexivity.
  replace (percentage_test []) with false by reflexivity.
  rewrite !andb_false_r. reflexivity.
Qed.

Lemma existsb_remove_trailing_dot (c : ascii) (l : str) :
  existsb (Ascii.eqb c) l = false -> existsb (Ascii.eqb c) (remove_trailing_dot l) = false.
Proof.
  intros H. unfold remove_trailing_dot. destruct (rev l) as [|d r] eqn:E; [exact H|].
  destruct (Ascii.eqb d "."); [|exact H].
  rewrite <- (rev_involutive l), E in H. cbn in H. rewrite existsb_app in H. split_andb.
  exact H.
Qed.

Lemma remove_trailing_dot_app (p y : str) :
  y <> [] -> remove_trailing_dot (p ++ y) = p ++ remove_trailing_dot y.
Proof.
  intros Hy. unfold remove_trailing_dot. rewrite rev_app_distr.
  destruct (rev y) as [|d r] eqn:E.
  - apply (f_equal (@rev ascii)) in E. rewrite rev_involutive in E. cbn in E. congruence.
  - cbn [app]. destruct (Ascii.eqb d "."); [|reflexivity].
    rewrite rev_app_distr, rev_involutive. reflexivity.
Qed.


Lemma digits_dot_chars (d f : str) :
  digits1 d = true -> opt_dot_digits0 f = true ->
  forallb (fun c => is_digit c || Ascii.eqb c ".")%bool (d ++ f) = true.
Proof.
  intros Hd Hf. rewrite forallb_app. apply andb_true_intro. split.
  - destruct d; [discriminate|]. apply (forallb_weaken is_digit); [|exact Hd].
    intros c Hc. rewrite Hc. reflexivity.
  - destruct f as [|c r]; [reflexivity|]. cbn in Hf |- *. split_andb. rewrite H.
    rewrite orb_true_r. cbn. apply (forallb_weaken is_digit); [|exact H0].
    intros c' Hc. rewrite Hc. reflexivity.
Qed.

Lemma npt_test_number (d f : str) :
  digits1 d = true -> opt_dot_digits0 f = true -> npt_test (d ++ f) = true.
Proof.
  intros Hd Hf. apply existsb_exists. exists (d ++ f). split; [apply (in_suffixes [])|].
  apply existsb_exists. exists (d, f). split; [apply in_splits|].
  cbn [fst snd]. unfold npt_core. rewrite Hd, Hf, !orb_true_r. reflexivity.
Qed.

Lemma npt_test_not_end (p : str) (c : ascii) :
  (is_digit c || Ascii.eqb c ".")%bool = false -> npt_test (p ++ [c]) = false.
Proof.
  intros Hc. destruct (npt_test (p ++ [c])) eqn:E; [|reflexivity].
  destruct (npt_test_last _ E) as (q & c' & Hq & Hc').
  apply app_inj_tail in Hq as [_ ->]. congruence.
Qed.

Lemma smpte_test_not_end (p : str) (c : ascii) :
  is_digit c = false -> smpte_test (p ++ [c]) = false.
Proof.
  intros Hc. destruct (smpte_test (p ++ [c])) eqn:E; [|reflexivity].
  destruct (smpte_test_last _ E) as (q & c' & Hq & Hc').
  apply app_inj_tail in Hq as [_ ->]. congruence.
Qed.

Lemma forallb_in (P : ascii -> bool) (c : ascii) (l : str) :
  forallb P l = true -> In c l -> P c = true.
Proof. intros H Hin. rewrite forallb_forall in H. auto. Qed.

Lemma choose_wallClock (s e : str) :
  choose_normalizer s e = Some NormWallClock -> wallClock_test s = true /\ wallClock_test e = true.
Proof.
  unfold choose_normalizer.
  destruct (npt_test s && npt_test e)%bool; [discriminate|].
  destruct (smpte_test s && smpte_test e)%bool; [discriminate|].
  destruct (wallClock_test s && wallClock_test e)%bool eqn:E.
  - intros _. split_andb. auto.
  - destruct (percentage_test s && percentage_test e)%bool; discriminate.
Qed.

Lemma choose_percentage (s e : str) :
  choose_normalizer s e = Some NormPercentage ->
  percentage_test s = true /\ percentage_test e = true.
Proof.
  unfold choose_normalizer.
  destruct (npt_test s && npt_test e)%bool; [discriminate|].
  destruct (smpte_test s && smpte_test e)%bool; [discriminate|].
  destruct (wallClock_test s && wallClock_test e)%bool; [discriminate|].
  destruct (percentage_test s && percentage_test e)%bool eqn:E; [|discriminate].
  intros _. split_andb. auto.
Qed.

Section TimeFragmentExtras.
Variable secondsBelow60 : str -> bool.

Lemma npt_one_field (t : str) :
  t <> [] -> existsb (Ascii.eqb ":") t = false ->
  normalizeNPTTime secondsBelow60 t = Some (FNPT 0 0 (remove_trailing_dot t)).
Proof.
  intros Hne Hc. destruct t as [|c r]; [contradiction|].
  unfold normalizeNPTTime.
  rewrite split_on_nosep by (apply existsb_remove_trailing_dot; exact Hc).
  reflexivity.
Qed.

Lemma npt_prefixed_throws (x : str) :
  existsb (Ascii.eqb ":") x = false ->
  normalizeNPTTime secondsBelow60 (lit "npt:" ++ x) = None.
Proof.
  intros Hx. destruct x as [|c x']; [reflexivity|].
  assert (E1 : remove_trailing_dot (lit "npt:" ++ c :: x') =
               lit "npt:" ++ remove_trailing_dot (c :: x'))
    by (apply remove_trailing_dot_app; discriminate).
  assert (E2 : forall r, split_on ":" (lit "npt:" ++ r) = lit "npt" :: split_on ":" r)
    by reflexivity.
  change (lit "npt:" ++ c :: x') with ("n"%char :: lit "pt:" ++ c :: x').
  unfold normalizeNPTTime.
  change ("n"%char :: lit "pt:" ++ c :: x') with (lit "npt:" ++ c :: x').
  rewrite E1, E2, split_on_nosep by (apply existsb_remove_trailing_dot; exact Hx).
  reflexivity.
Qed.

(** X5 (temporalMediaFragmentParser, lines 235-276): every string the
    [smpte] expression accepts also satisfies [npt], which is tried first,
    so the parser never picks [normalizeSMPTETime]. *)
Theorem X5_smpte_never_chosen :
  (forall s, smpte_test s = true -> npt_test s = true) /\
  (forall start end_, choose_normalizer start end_ <> Some NormSMPTE).
Proof. split; [apply smpte_then_npt | apply choose_not_smpte]. Qed.

(** X6 (temporalMediaFragmentParser, lines 215-276): when the start or
    the end component of the fragment is empty (no comma, or nothing before
    it), no format accepts the empty string and the parser throws. *)
Theorem X6_empty_side_rejected (value : str) :
  nth 0 (split_on "," value) [] = [] \/ nth 1 (split_on "," value) [] = [] ->
  temporalMediaFragmentParser secondsBelow60 value = None.
Proof.
  intros H. unfold temporalMediaFragmentParser.
  destruct (negb (Nat.leb (length (split_on "," value)) 2)); [reflexivity|].
  destruct (negb _); [reflexivity|].
  destruct H as [H|H]; rewrite H.
  - change (replace_first (lit "clock:") (strip_npt (strip_smpte []))) with (@nil ascii).
    rewrite choose_empty_start. reflexivity.
  - rewrite choose_empty_end. reflexivity.
Qed.

(** X7 (temporalMediaFragmentParser with normalizeNPTTime): two plain
    decimal second counts ([\d+] with an optional [.\d*]) separated by a
    comma parse as NPT times with zero hours and minutes, a trailing dot
    dropped. *)
Theorem X7_npt_seconds_pair (da fa db fb : str) :
  digits1 da = true -> opt_dot_digits0 fa = true ->
  digits1 db = true -> opt_dot_digits0 fb = true ->
  temporalMediaFragmentParser secondsBelow60 ((da ++ fa) ++ ","%char :: db ++ fb) =
    Some (FNPT 0 0 (remove_trailing_dot (da ++ fa)), FNPT 0 0 (remove_trailing_dot (db ++ fb))).
Proof.
  intros Hda Hfa Hdb Hfb.
  pose proof (digits_dot_chars _ _ Hda Hfa) as Ca.
  pose proof (digits_dot_chars _ _ Hdb Hfb) as Cb.
  assert (Hne : forall d f, digits1 d = true -> nonempty (d ++ f) = true)
    by (intros [|? ?] f Hd; [discriminate|reflexivity]).
  unfold temporalMediaFragmentParser.
  rewrite split_on_app by (apply (forallb_excludes _ _ _ Ca); reflexivity).
  rewrite split_on_nosep by (apply (forallb_excludes _ _ _ Cb); reflexivity).
  cbn [length nth Nat.leb negb].
  rewrite (Hne da fa Hda), (Hne db fb Hdb). cbn [orb andb negb].
  rewrite strip_start_id by (apply (forallb_excludes _ _ _ Ca); reflexivity).
  unfold choose_normalizer.
  rewrite (npt_test_number _ _ Hda Hfa), (npt_test_number _ _ Hdb Hfb). cbn [andb normalize].
  rewrite !npt_one_field; try reflexivity;
    try (apply (forallb_excludes _ _ _ Ca); reflexivity);
    try (apply (forallb_excludes _ _ _ Cb); reflexivity);
    try (intros E; pose proof (Hne da fa Hda) as N; rewrite E in N; discriminate);
    try (intros E; pose proof (Hne db fb Hdb) as N; rewrite E in N; discriminate).
Qed.

(** X8 (temporalMediaFragmentParser with normalizePercentage): two
    percentages separated by a comma come back unchanged, as strings. *)
Theorem X8_percentage_pair (a b : str) :
  percentage_test a = true -> percentage_test b = true ->
  temporalMediaFragmentParser secondsBelow60 (a ++ ","%char :: b) = Some (FStr a, FStr b).
Proof.
  intros Ha Hb.
  destruct (percentage_chars_last a Ha) as [Ca [pa ->]].
  destruct (percentage_chars_last b Hb) as [Cb [pb ->]].
  assert (Hne : forall p, nonempty (p ++ ["%"%char]) = true) by (intros [|? ?]; reflexivity).
  assert (Hw : forall s, forallb pct_char s = true -> wallClock_test s = false).
  { intros s Cs. destruct (wallClock_test s) eqn:E; [|reflexivity].
    pose proof (forallb_in _ _ _ Cs (wallClock_dash s E)). discriminate. }
  unfold temporalMediaFragmentParser.
  rewrite split_on_app by (apply (forallb_excludes _ _ _ Ca); reflexivity).
  rewrite split_on_nosep by (apply (forallb_excludes _ _ _ Cb); reflexivity).
  cbn [length nth Nat.leb negb].
  rewrite !Hne. cbn [orb andb negb].
  rewrite strip_start_id by (apply (forallb_excludes _ _ _ Ca); reflexivity).
  unfold choose_normalizer.
  rewrite !npt_test_not_end, !smpte_test_not_end by reflexivity.
  rewrite (Hw _ Ca), Ha, Hb. cbn [andb normalize].
  unfold normalizePercentage. destruct pa, pb; reflexivity.
Qed.

(** X9 (temporalMediaFragmentParser, lines 223-226 and 278-279): the
    [npt:] prefix is removed from the start only; an end written as
    [npt:] followed by a colon-free time is always rejected. *)
Theorem X9_npt_prefixed_end_rejected (a x : str) :
  existsb (Ascii.eqb ",") a = false -> existsb (Ascii.eqb ",") x = false ->
  existsb (Ascii.eqb ":") x = false ->
  temporalMediaFragmentParser secondsBelow60 (a ++ ","%char :: lit "npt:" ++ x) = None.
Proof.
  intros Ha Hx Hcol. unfold temporalMediaFragmentParser.
  rewrite split_on_app by exact Ha.
  rewrite split_on_nosep by (rewrite existsb_app, Hx; reflexivity).
  cbn [length nth Nat.leb negb].
  destruct (negb _); [reflexivity|].
  set (s' := replace_first (lit "clock:") (strip_npt (strip_smpte a))).
  destruct (choose_normalizer s' (lit "npt:" ++ x)) as [n|] eqn:Ech; [|reflexivity].
  destruct n.
  - cbn [normalize]. destruct (normalizeNPTTime secondsBelow60 s'); [|reflexivity].
    rewrite npt_prefixed_throws by exact Hcol. reflexivity.
  - exfalso. exact (choose_not_smpte _ _ Ech).
  - apply choose_wallClock in Ech as [_ E].
    change (lit "npt:" ++ x) with ("n"%char :: lit "pt:" ++ x) in E.
    apply wallClock_first in E. discriminate.
  - apply choose_percentage in Ech as [_ E].
    apply percentage_chars_last in E as [E _]. discriminate.
Qed.

Lemma wallClock_chars (s : str) :
  wallClock_test s = true ->
  forallb (fun c => is_digit c || Ascii.eqb c "-" || Ascii.eqb c "T" || Ascii.eqb c ":" ||
                    Ascii.eqb c "." || Ascii.eqb c "Z" || Ascii.eqb c "+")%bool s = true.
Proof.
  intros H. do 19 (destruct s as [|? s]; [discriminate|]).
  cbn -[is_digit] in H. split_andb.
  repeat match goal with Hq : Ascii.eqb _ _ = true |- _ => apply ascii_eqb_true in Hq; subst end.
  apply existsb_exists in H0 as ([u v] & Hin & Huv). apply splits_in in Hin. subst s.
  cbn [fst snd] in Huv. apply andb_prop in Huv as [Hu0 Hv0].
  cbn [forallb]. rewrite forallb_app.
  repeat match goal with Hd : is_digit _ = true |- _ => rewrite Hd; clear Hd end.
  cbn [orb andb].
  assert (Hu : forallb (fun c => is_digit c || Ascii.eqb c "-" || Ascii.eqb c "T" ||
               Ascii.eqb c ":" || Ascii.eqb c "." || Ascii.eqb c "Z" || Ascii.eqb c "+")%bool u
               = true).
  { destruct u as [|c r]; [reflexivity|]. cbn -[is_digit] in Hu0 |- *.
    apply andb_prop in Hu0 as [Hc0 Hr0].
    apply ascii_eqb_true in Hc0. subst c. cbn -[is_digit].
    apply (forallb_weaken is_digit); [intros c Hc; rewrite Hc; reflexivity|].
    destruct r; [discriminate|exact Hr0]. }
  rewrite Hu.
  destruct v as [|c [|z1 [|z2 [|z3 [|z4 [|z5 [|? ?]]]]]]]; cbn -[is_digit] in Hv0;
    try discriminate; split_andb;
    repeat match goal with Hq : Ascii.eqb _ _ = true |- _ => apply ascii_eqb_true in Hq; subst end;
    repeat match goal with Hd : is_digit _ = true |- _ => cbn -[is_digit]; rewrite Hd; clear Hd end;
    try reflexivity.
  match goal with Hs : ((_ =? "-")%char || _)%bool = true |- _ =>
    apply orb_prop in Hs as [Hs|Hs]; apply ascii_eqb_true in Hs; subst end; reflexivity.
Qed.

(** X10 (temporalMediaFragmentParser with normalizeWallClockTime): a
    [clock:] start and an end that are UTC wall-clock times (ending in [Z])
    parse as two dates. *)
Theorem X10_clock_utc_pair (a b : str) :
  wallClock_test (a ++ ["Z"%char]) = true -> wallClock_test (b ++ ["Z"%char]) = true ->
  temporalMediaFragmentParser secondsBelow60
    (lit "clock:" ++ (a ++ ["Z"%char]) ++ ","%char :: b ++ ["Z"%char]) =
    Some (FDate (a ++ ["Z"%char]), FDate (b ++ ["Z"%char])).
Proof.
  intros Ha Hb.
  pose proof (wallClock_chars _ Ha) as Ca. pose proof (wallClock_chars _ Hb) as Cb.
  unfold temporalMediaFragmentParser.
  rewrite app_assoc, split_on_app
    by (rewrite existsb_app; rewrite (forallb_excludes _ _ _ Ca) by reflexivity; reflexivity).
  rewrite split_on_nosep by (apply (forallb_excludes _ _ _ Cb); reflexivity).
  cbn [length nth Nat.leb negb].
  rewrite <- app_assoc.
  replace (replace_first (lit "clock:") (strip_npt (strip_smpte (lit "clock:" ++ a ++ ["Z"%char]))))
    with (a ++ ["Z"%char]) by reflexivity.
  assert (Hne : forall p, nonempty (p ++ ["Z"%char]) = true) by (intros [|? ?]; reflexivity).
  change (nonempty (lit "clock:" ++ a ++ ["Z"%char])) with true.
  rewrite Hne. cbn [orb andb negb].
  unfold choose_normalizer.
  rewrite !npt_test_not_end, !smpte_test_not_end, Ha, Hb by reflexivity.
  reflexivity.
Qed.

(** X11 (temporalMediaFragmentParser, lines 223-226 and 261-276): the
    [clock:] prefix is removed from the start only; an end written as
    [clock:] followed by a time ending in [Z] matches no format and the
    parser throws. *)
Theorem X11_clock_prefixed_end_rejected (a x : str) :
  existsb (Ascii.eqb ",") a = false -> existsb (Ascii.eqb ",") x = false ->
  temporalMediaFragmentParser secondsBelow60 (a ++ ","%char :: lit "clock:" ++ x ++ ["Z"%char]) = None.
Proof.
  intros Ha Hx. unfold temporalMediaFragmentParser.
  rewrite split_on_app by exact Ha.
  rewrite split_on_nosep by (rewrite !existsb_app, Hx; reflexivity).
  cbn [length nth Nat.leb negb].
  destruct (negb _); [reflexivity|].
  set (s' := replace_first (lit "clock:") (strip_npt (strip_smpte a))).
  set (e := lit "clock:" ++ x ++ ["Z"%char]).
  assert (Hn : npt_test e = false)
    by (unfold e; rewrite app_assoc; apply npt_test_not_end; reflexivity).
  assert (Hs : smpte_test e = false)
    by (unfold e; rewrite app_assoc; apply smpte_test_not_end; reflexivity).
  assert (Hw : wallClock_test e = false).
  { destruct (wallClock_test e) eqn:E; [|reflexivity].
    unfold e in E. change (lit "clock:" ++ x ++ ["Z"%char]) with
      ("c"%char :: lit "lock:" ++ x ++ ["Z"%char]) in E.
    apply wallClock_first in E. discriminate. }
  assert (Hp : percentage_test e = false).
  { destruct (percentage_test e) eqn:E; [|reflexivity].
    apply percentage_chars_last in E as [E _]. discriminate. }
  unfold choose_normalizer. rewrite Hn, Hs, Hw, Hp, !andb_false_r. reflexivity.
Qed.

(** X12 (normalizeNPTTime, lines 81-123): a time without a colon is
    accepted whatever it holds: its value is not range-checked (the
    [seconds < 60] test is skipped for one field) and not checked to be a
    number. *)
Theorem X12_npt_single_field_unchecked (t : str) :
  t <> [] -> existsb (Ascii.eqb ":") t = false ->
  normalizeNPTTime secondsBelow60 t = Some (FNPT 0 0 (remove_trailing_dot t)).
Proof. apply npt_one_field. Qed.

End TimeFragmentExtras.


Section ImageTip.
Context {D : Type}.

Lemma findIndex_range {A} (p : A -> bool) (l : list A) : -1 <= findIndex p l.
Proof.
  induction l as [|y l IH]; cbn; [lia|].
  destruct (p y); [lia|]. destruct (Z.eqb_spec (findIndex p l) (-1)); lia.
Qed.

Lemma findIndex_app {A} (p : A -> bool) (l1 l2 : list A) :
  Forall (fun y => p y = false) l1 ->
  findIndex p (l1 ++ l2) =
    if findIndex p l2 =? -1 then -1 else Z.of_nat (length l1) + findIndex p l2.
Proof.
  induction l1 as [|y l1 IH]; intros H.
  - cbn [app length]. destruct (Z.eqb_spec (findIndex p l2) (-1)); lia.
  - inversion H as [|? ? Hy Hl]; subst. cbn [app findIndex]. rewrite Hy, IH by exact Hl.
    pose proof (findIndex_range p l2).
    destruct (Z.eqb_spec (findIndex p l2) (-1)) as [E|E].
    + reflexivity.
    + cbn [length]. rewrite (proj2 (Z.eqb_neq _ _)) by lia. lia.
Qed.

Lemma js_index_at (pre : list (option (image_entry D))) (x : option (image_entry D)) rest :
  js_index (pre ++ x :: rest) (Z.of_nat (length pre)) = x.
Proof.
  unfold js_index. rewrite (proj2 (Z.ltb_ge _ _)) by lia. rewrite Nat2Z.id.
  rewrite nth_error_app2 by lia. rewrite Nat.sub_diag. reflexivity.
Qed.

(** X13 (Progressbar.showImageTip, part_000 lines 16-36): when the images
    up to [x] are at or before the hovered position and those after [x]
    are past it (thumbnails sorted by time), the tip shows [x]'s data at
    the pointer, whether or not images follow. *)
Theorem X13_image_tip_shows_latest_before (pre post : list (image_entry D))
    (x : image_entry D) (t clientX : Z) (st : tip_state D) :
  Forall (fun i => img_ts i <= t) (pre ++ [x]) ->
  Forall (fun i => t < img_ts i) post ->
  showImageTip (Some (map Some (pre ++ x :: post))) t clientX st =
    mkTip true clientX (Some (img_data x)).
Proof.
  intros Hpre Hpost. unfold showImageTip.
  destruct (map Some (pre ++ x :: post)) as [|o0 L] eqn:E; [destruct pre; discriminate|].
  rewrite <- E.
  assert (HL : map Some (pre ++ x :: post) = (map Some pre ++ [Some x]) ++ map Some post)
    by (rewrite map_app, <- app_assoc; reflexivity).
  assert (Hnot : Forall (fun io => match io with Some i => t <? img_ts i | None => false end = false)
                   (map Some pre ++ [Some x])).
  { change [Some x] with (map Some [x]). rewrite <- map_app. apply Forall_map. eapply Forall_impl; [|exact Hpre].
    intros i Hi. cbn. apply Z.ltb_ge. exact Hi. }
  rewrite HL, findIndex_app by exact Hnot.
  rewrite length_app, length_map. cbn [length].
  destruct post as [|y post'].
  - cbn [map findIndex Z.eqb]. rewrite app_nil_r.
    replace (Z.of_nat (length (map Some pre ++ [Some x])) - 1)
      with (Z.of_nat (length (map Some pre)))
      by (rewrite length_app, length_map; cbn [length]; lia).
    rewrite js_index_at. reflexivity.
  - inversion Hpost as [|? ? Hy _]; subst.
    cbn [map findIndex]. rewrite (proj2 (Z.ltb_lt _ _)) by exact Hy. cbn [Z.eqb].
    rewrite (proj2 (Z.eqb_neq (Z.of_nat (length pre + 1) + 0) (-1))) by lia.
    replace (Z.of_nat (length pre + 1) + 0 - 1) with (Z.of_nat (length (map Some pre)))
      by (rewrite length_map; lia).
    rewrite <- app_assoc. cbn [app]. rewrite js_index_at. reflexivity.
Qed.

(** X14 (Progressbar.showImageTip, part_000 lines 22-31): when the first
    image is already past the hovered position, [images[imageIndex - 1]]
    is [images[-1]], undefined, and the state is left as it was, a tip
    shown before included. *)
Theorem X14_image_tip_unchanged_before_first (x : image_entry D)
    (rest : list (option (image_entry D))) (t clientX : Z) (st : tip_state D) :
  t < img_ts x -> showImageTip (Some (Some x :: rest)) t clientX st = st.
Proof.
  intros H. unfold showImageTip. cbn [findIndex].
  rewrite (proj2 (Z.ltb_lt _ _)) by exact H. reflexivity.
Qed.

End ImageTip.

(** * Witnesses of the further properties *)

Lemma X1_witness :
  0 < 10 /\ debounce_run 10 None [0; 5; 30; 40] = debounce_expected 10 0 [5; 30; 40].
Proof. split; [lia|apply (X1_debounce_runs 10 0 [5; 30; 40]); lia]. Defined.

Lemma X2_witness :
  0 < 10 /\
  exists pre, debounce_run 10 None ([0; 5; 30] ++ [40]) = pre ++ [40 + 10] /\
              (length pre <= length [0; 5; 30])%nat /\ 40 < 40 + 10.
Proof. split; [lia|apply (X2_debounce_last_and_count 10 40 [0; 5; 30]); lia]. Defined.

Lemma X5_witness :
  npt_test (lit "12:34:56") = true /\
  choose_normalizer (lit "1:00:00") (lit "1:00:05") <> Some NormSMPTE.
Proof.
  split; [apply (proj1 X5_smpte_never_chosen); reflexivity | apply (proj2 X5_smpte_never_chosen)].
Defined.

Lemma X6_witness : temporalMediaFragmentParser (fun _ => true) (lit "10") = None.
Proof. apply X6_empty_side_rejected. right. reflexivity. Defined.

Lemma X7_witness :
  temporalMediaFragmentParser (fun _ => true) ((lit "10" ++ lit ".") ++ ","%char :: lit "20" ++ lit ".5") =
    Some (FNPT 0 0 (remove_trailing_dot (lit "10" ++ lit ".")),
          FNPT 0 0 (remove_trailing_dot (lit "20" ++ lit ".5"))).
Proof. apply X7_npt_seconds_pair; reflexivity. Defined.

Lemma X8_witness :
  temporalMediaFragmentParser (fun _ => true) (lit "80%" ++ ","%char :: lit "90 %") =
    Some (FStr (lit "80%"), FStr (lit "90 %")).
Proof. apply X8_percentage_pair; reflexivity. Defined.

Lemma X9_witness :
  temporalMediaFragmentParser (fun _ => true) (lit "10" ++ ","%char :: lit "npt:" ++ lit "20") = None.
Proof. apply X9_npt_prefixed_end_rejected; reflexivity. Defined.

Lemma X10_witness :
  temporalMediaFragmentParser (fun _ => true)
    (lit "clock:" ++ (lit "2017-03-23T15:09:17" ++ ["Z"%char]) ++
     ","%char :: lit "2017-03-23T16:09:17" ++ ["Z"%char]) =
    Some (FDate (lit "2017-03-23T15:09:17" ++ ["Z"%char]),
          FDate (lit "2017-03-23T16:09:17" ++ ["Z"%char])).
Proof. apply X10_clock_utc_pair; reflexivity. Defined.

Lemma X11_witness :
  temporalMediaFragmentParser (fun _ => true)
    (lit "clock:2017-03-23T15:09:17Z" ++ ","%char :: lit "clock:" ++
     lit "2017-03-23T16:09:17" ++ ["Z"%char]) = None.
Proof. apply X11_clock_prefixed_end_rejected; reflexivity. Defined.

Lemma X12_witness :
  normalizeNPTTime (fun _ => false) (lit "3600.") =
    Some (FNPT 0 0 (remove_trailing_dot (lit "3600."))).
Proof. apply X12_npt_single_field_unchecked; [discriminate | reflexivity]. Defined.

Lemma X13_witness :
  showImageTip (Some (map Some ([mkImage 0 10%nat] ++ mkImage 1000 11%nat :: [mkImage 2000 12%nat])))
    1500 7 (mkTip false 0 None) = mkTip true 7 (Some 11%nat).
Proof.
  apply X13_image_tip_shows_latest_before;
    cbn [app]; repeat (apply Forall_cons || apply Forall_nil); cbn; lia.
Defined.

Lemma X14_witness :
  showImageTip (Some [Some (mkImage 100 10%nat)]) 50 7 (mkTip true 3 (Some 9%nat)) =
    mkTip true 3 (Some 9%nat).
Proof. apply X14_image_tip_unchanged_before_first. cbn. lia. Defined.
